(** * White 200: the colour-guessing game, its palette, scoring and outcomes

    The repository holds four generations of the same browser script:
    - [main.js]: global variables, colours as arrays [[r, g, b]];
    - [part_002]: [main.js] plus the five-slot score history and the
      per-round miss counter (module [Script] below);
    - [part_001]: a [Color] class and a [state] object (module [StateObj]);
    - [part_000]: classes [Color], [Game] and the [View] adapter
      (module [Classes]).

    JavaScript numbers that hold integers are modelled by [Z] (every integer
    met here is far below 2^53); the score, which is divided by [step^2], is
    modelled by exact rationals [Q]: rounding is not modelled, and a division
    by a step of 0, which gives [Infinity] or [NaN] in JavaScript, is outside
    the model (the statements about penalties take a positive step).  The
    clock ([new Date().getTime()]) is an input [now : Z] in milliseconds.
    DOM updates are left out. *)

From Stdlib Require Import ZArith QArith String Ascii.
From Stdlib Require Import HexadecimalString.
From Stdlib Require HexString DecimalString DecimalZ.
From stdpp Require Import base list gmap strings.

#[local] Open Scope Z_scope.

(** ** The random source *)

(** One value of [Math.random()]: a number in [[0, 1)], kept as a fraction
    [s_num / s_den] with [s_num < s_den]. *)
Record sample : Type := Sample {
  s_num : N;
  s_den : positive;
  s_lt : (s_num <? Npos s_den)%N = true
}.

(** [Math.floor(Math.random() * n)] for the drawn value [u]. *)
Definition floor_mul (u : sample) (n : Z) : Z :=
  (Z.of_N (s_num u) * n) / Zpos (s_den u).

(** The generator: the sequence of values the successive calls of
    [Math.random()] return, and how many have been consumed. *)
Record Rng : Type := mkRng { draws : nat → sample; pos : nat }.

Definition random (rng : Rng) : sample * Rng :=
  (draws rng (pos rng), mkRng (draws rng) (S (pos rng))).

(** ** Arrays and [shuffle] *)

(** A reference to an array. *)
Abbreviation loc := positive (only parsing).

Section Shuffle.
Context {A : Type}.

(** [[array[i], array[j]] = [array[j], array[i]]] on an array with both
    indices in range.  The right-hand side is read first.  [shuffle] only
    calls it with [j <= i < array.length] (see [shuffle_draw_in_range]); outside
    the array JavaScript would read [undefined] and grow the array, which
    a list of [A] cannot hold, so the list is left as it is there. *)
Definition swap (i j : nat) (array : list A) : list A :=
  match array !! j, array !! i with
  | Some aj, Some ai => <[j := ai]> (<[i := aj]> array)
  | _, _ => array
  end.

(** The loop [for (let i = array.length - 1; i > 0; i--)], entered with
    the current value of [i]. *)
Fixpoint shuffle_loop (i : nat) (array : list A) (rng : Rng) : list A * Rng :=
  match i with
  | O => (array, rng)
  | S i' =>
      let '(u, rng') := random rng in
      let j := Z.to_nat (floor_mul u (Z.of_nat i + 1)) in
      shuffle_loop i' (swap i j array) rng'
  end.

(** [shuffle] on the contents of the array: the copy made by the
    parameter pattern [[...array]] is the list itself. *)
Definition shuffle (array : list A) (rng : Rng) : list A * Rng :=
  shuffle_loop (length array - 1) array rng.

(** *** The same function over a store of arrays

    Arrays are objects: a variable holds a reference, and a write through
    one reference is seen through every other.  The store maps references
    to array contents. *)
#[local] Abbreviation store := (gmap loc (list A)).

Definition store_swap (a : loc) (i j : nat) (σ : store) : store :=
  match σ !! a with
  | Some xs => <[a := swap i j xs]> σ
  | None => σ
  end.

Fixpoint shuffle_loop_ref (i : nat) (a : loc) (σ : store) (rng : Rng)
  : store * Rng :=
  match i with
  | O => (σ, rng)
  | S i' =>
      let '(u, rng') := random rng in
      let j := Z.to_nat (floor_mul u (Z.of_nat i + 1)) in
      shuffle_loop_ref i' a (store_swap a i j σ) rng'
  end.

(** [const shuffle = ([...array]) => { ...; return array; }] called with
    the reference [arg].  The parameter pattern allocates a new array
    holding the elements of the argument; the loop writes to that new
    array, whose reference is returned.  [None]: [arg] is no array. *)
Definition shuffle_ref (arg : loc) (σ : store) (rng : Rng)
  : option (loc * store * Rng) :=
  match σ !! arg with
  | None => None
  | Some xs =>
      let array := fresh (dom σ) in
      let σ1 := <[array := xs]> σ in
      let '(σ2, rng') := shuffle_loop_ref (length xs - 1) array σ1 rng in
      Some (array, σ2, rng')
  end.
End Shuffle.

(** ** Numbers as text *)

(** [n.toString(16)] for an integer [n]: lowercase digits, no leading
    zero, a leading [-] for a negative number. *)
Definition toString16 (n : Z) : string :=
  NilZero.string_of_int (Z.to_hex_int n).

(** [s.padStart(2, "0")]. *)
Definition padStart2 (s : string) : string :=
  match s with
  | EmptyString => "00"
  | String c EmptyString => String "0" s
  | _ => s
  end.

(** The value of one hexadecimal digit, either case; [None] for any other
    character.  This is the character class [[0-9a-f]] under the flag [i]. *)
Definition hex_digit_value (c : ascii) : option Z :=
  Z.of_N <$> HexString.ascii_to_digit c.

(** [parseInt(s, 16)] for a string [s] of two hexadecimal digits. *)
Definition parseInt16_2 (c1 c2 : ascii) : option Z :=
  d1 ← hex_digit_value c1; d2 ← hex_digit_value c2; Some (16 * d1 + d2).

(** The pattern [#([0-9a-f]{2})([0-9a-f]{2})([0-9a-f]{2})] tried at the
    start of [s]: the three captured groups, already through [parseInt]. *)
Definition match_here (s : string) : option (Z * Z * Z) :=
  match s with
  | String "#" (String a1 (String a2 (String b1 (String b2
      (String c1 (String c2 _)))))) =>
      r ← parseInt16_2 a1 a2; g ← parseInt16_2 b1 b2; b ← parseInt16_2 c1 c2;
      Some (r, g, b)
  | _ => None
  end.

(** [hex.match(/#([0-9a-f]{2})([0-9a-f]{2})([0-9a-f]{2})/i)]: the pattern
    has no anchor, so it is tried at every position from the left and the
    first success is the match. *)
Fixpoint regex_match (hex : string) : option (Z * Z * Z) :=
  match match_here hex with
  | Some m => Some m
  | None =>
      match hex with
      | EmptyString => None
      | String _ rest => regex_match rest
      end
  end.

(** ** The class [Color] (part_000, part_001) *)

Module Color.
Record t : Type := mk { r : Z; g : Z; b : Z }.

#[global] Instance t_eq_dec : EqDecision t.
Proof. solve_decision. Defined.

(** [constructor(r, g, b)]: [%] is JavaScript's remainder, which takes
    the sign of the dividend ([Z.rem]). *)
Definition new (r g b : Z) : t :=
  mk (Z.rem r 256) (Z.rem g 256) (Z.rem b 256).

Definition paddedHex (n : Z) : string :=
  padStart2 (toString16 (Z.rem n 256)).

(** [null] is [None]. *)
Definition fromHex (hex : string) : option t :=
  match regex_match hex with
  | None => None
  | Some (r, g, b) => Some (new r g b)
  end.

Definition toString (c : t) : string :=
  ("#" ++ paddedHex (r c) ++ paddedHex (g c) ++ paddedHex (b c))%string.

(** part_001 names it [toHex]; [toString] calls it there. *)
Definition toHex (c : t) : string := toString c.

Definition eq (c : t) (other : option t) : bool :=
  match other with
  | None => false
  | Some o =>
      bool_decide (r c = r o) && bool_decide (g c = g o)
      && bool_decide (b c = b o)
  end.

Definition diff (c : t) (other : option t) : Z :=
  match other with
  | Some o => (r c - r o) ^ 2 + (g c - g o) ^ 2 + (b c - b o) ^ 2
  | None => -1
  end.

(** part_000: [cloneWithDiff(r, g, b, multiplier = 1)]. *)
Definition cloneWithDiff (c : t) (dr dg db multiplier : Z) : t :=
  new (r c - dr * multiplier) (g c - dg * multiplier) (b c - db * multiplier).

(** part_001: [withDiff({ r, g, b })], which adds. *)
Definition withDiff (c : t) (dr dg db : Z) : t :=
  new (r c + dr) (g c + dg) (b c + db).
End Color.

(** The three nested loops [for (let r = 0; r <= 5; ++r)] ..., each pushing
    [item r g b]. *)
Definition range6 : list Z := [0; 1; 2; 3; 4; 5].

Definition lattice_of {A : Type} (item : Z → Z → Z → A) : list A :=
  r ← range6; g ← range6; b ← range6; [item r g b].

(** [array.slice(0, end)] for an integer [end]: a negative [end] counts
    from the end of the array. *)
Definition slice0 {A : Type} (end_ : Z) (array : list A) : list A :=
  if end_ <? 0
  then take (Z.to_nat (Z.max (Z.of_nat (length array) + end_) 0)) array
  else take (Z.to_nat end_) array.

(** [array[k]] for an integer [k]; [undefined] is [None]. *)
Definition index {A : Type} (array : list A) (k : Z) : option A :=
  if k <? 0 then None else array !! Z.to_nat k.

(** ** part_000: the classes [Game] and the page around it *)

Module Classes.
Record Game : Type := mkGame {
  score : Q;
  tryCount : Z;
  startTime : option Z;      (* [null] until [start()] *)
  colorStep : Z;
  colors : list Color.t;
  answer : option Color.t    (* [undefined] when [colors] is empty *)
}.

Definition white : Color.t := Color.new 255 255 255.

Definition lattice (difficulty : Z) : list Color.t :=
  lattice_of (λ r g b, Color.cloneWithDiff white r g b difficulty).

(** [new Game(num, difficulty)]. *)
Definition Game_new (num difficulty : Z) (rng : Rng) : Game * Rng :=
  let '(shuffled, rng1) := shuffle (lattice difficulty) rng in
  let colors := slice0 num shuffled in
  let '(u, rng2) := random rng1 in
  let k := floor_mul u (Z.of_nat (length colors)) in
  ({| score := if difficulty =? 1 then 1000 else 100;
      tryCount := 0;
      startTime := None;
      colorStep := difficulty;
      colors := colors;
      answer := index colors k |}, rng2).

(** [start()], the calls to [View] left out. *)
Definition Game_start (now : Z) (g : Game) : Game :=
  {| score := score g; tryCount := tryCount g; startTime := Some now;
     colorStep := colorStep g; colors := colors g; answer := answer g |}.

(** What [onSuccess] and [onFailure] hand to [View]. *)
Inductive view_call : Type :=
| showSuccess (score : Q) (tryCount elapsed : Z)
    (commentShared commentShown : string)
| showFailure (color : string) (diff : Q).

(** The pairs [commentShared], [commentShown] of the source, named. *)
Definition comment_tutorial : string * string :=
  ("| チュートリアルを完了しました！", "チュートリアル終了！").
Definition comment_first_try : string * string :=
  ("| 一発で白を見つけられました！", "一発で白を見つけられた！").
Definition comment_fast : string * string :=
  ("| 素早く白を見つけられました！", "素早く白を見つけられた！").
Definition comment_none : string * string := ("", "").

Definition onSuccess (now : Z) (start : Z) (g : Game) : view_call :=
  let elapsed := now - start in
  let '(commentShared, commentShown) :=
    if negb (colorStep g =? 1)
    then comment_tutorial
    else if tryCount g =? 1
    then comment_first_try
    else if elapsed <=? 10000
    then comment_fast
    else comment_none in
  showSuccess (score g) (tryCount g) elapsed commentShared commentShown.

Definition onFailure (color : Color.t) (g : Game) : Game * view_call :=
  let diff :=
    (inject_Z (Color.diff color (answer g)) / inject_Z (colorStep g ^ 2))%Q in
  ({| score := (score g - diff)%Q; tryCount := tryCount g;
      startTime := startTime g; colorStep := colorStep g;
      colors := colors g; answer := answer g |},
   showFailure (Color.toString color) diff).

(** The result of [onTry]: [null], or the boolean with the call made to
    [View], or the [TypeError] of [this.answer.eq] on an [undefined]
    answer. *)
Inductive try_result : Type :=
| Null
| Done (isSuccess : bool) (call : view_call)
| TypeError.

Definition onTry (hex : string) (now : Z) (g : Game) : Game * try_result :=
  match startTime g with
  | None => (g, Null)
  | Some start =>
      match Color.fromHex hex with
      | None => (g, Null)
      | Some color =>
          let g1 :=
            {| score := score g; tryCount := tryCount g + 1;
               startTime := startTime g; colorStep := colorStep g;
               colors := colors g; answer := answer g |} in
          match answer g1 with
          | None => (g1, TypeError)
          | Some ans =>
              if Color.eq ans (Some color)
              then (g1, Done true (onSuccess now start g1))
              else let '(g2, call) := onFailure color g1 in
                   (g2, Done false call)
          end
      end
  end.

(** The page: [let game = null] and the random source. *)
Record page : Type := mkPage { game : option Game; rng : Rng }.

Definition initial (rng : Rng) : page := mkPage None rng.

(** [start(num, dif)]. *)
Definition start (num dif : Z) (now : Z) (pg : page) : page :=
  let '(g, rng') := Game_new num dif (rng pg) in
  mkPage (Some (Game_start now g)) rng'.

(** [submit(hex)]: [None] when there is no game (the call is ignored),
    else the result of [onTry]. *)
Definition submit (hex : string) (now : Z) (pg : page)
  : page * option try_result :=
  match game pg with
  | None => (pg, None)
  | Some g =>
      let '(g', res) := onTry hex now g in
      match res with
      | Done true _ => (mkPage None (rng pg), Some res)
      | Done false _ => (mkPage (Some g') (rng pg), Some res)
      | Null => (start 200 3 now (mkPage (Some g') (rng pg)), Some res)
      | TypeError => (mkPage (Some g') (rng pg), Some res)
      end
  end.
End Classes.

(** ** part_002: the script with global variables *)

Module Script.
(** A colour is the array [[r, g, b]]. *)
Definition rgb : Type := Z * Z * Z.

Definition ColorToHex (color : Z) : string :=
  let hexadecimal := toString16 color in
  if (String.length hexadecimal =? 1)%nat
  then ("0" ++ hexadecimal)%string else hexadecimal.

Definition ConvertRGBtoHex (col : rgb) : string :=
  let '(r, g, b) := col in
  (ColorToHex r ++ ColorToHex g ++ ColorToHex b)%string.

(** An entry of [score_history5]: the string ["---"] or a final score. *)
Inductive hist : Type :=
| placeholder
| final (v : Q).

(** The global variables.  [ac_color] and [start_time] can be
    [undefined] ([None]); [enable_submit] starts as [0], which is as
    false as [false]. *)
Record state : Type := mkState {
  ac_color : option rgb;
  ac_color_hex : string;
  color_step : Z;
  start_time : option Z;
  try_num : Z;
  score_num : Q;
  enable_submit : bool;
  score_history5 : list hist;
  miss_cnt : gmap string Z
}.

Definition initial : state :=
  {| ac_color := Some (-1, -1, -1);
     ac_color_hex := "";
     color_step := 0;
     start_time := None;
     try_num := 0;
     score_num := 0;
     enable_submit := false;
     score_history5 :=
       [placeholder; placeholder; placeholder; placeholder; placeholder];
     miss_cnt := ∅ |}.

Definition with_try_num (v : Z) (st : state) : state :=
  mkState (ac_color st) (ac_color_hex st) (color_step st) (start_time st)
    v (score_num st) (enable_submit st) (score_history5 st) (miss_cnt st).
Definition with_score_num (v : Q) (st : state) : state :=
  mkState (ac_color st) (ac_color_hex st) (color_step st) (start_time st)
    (try_num st) v (enable_submit st) (score_history5 st) (miss_cnt st).
Definition with_enable_submit (v : bool) (st : state) : state :=
  mkState (ac_color st) (ac_color_hex st) (color_step st) (start_time st)
    (try_num st) (score_num st) v (score_history5 st) (miss_cnt st).
Definition with_score_history5 (v : list hist) (st : state) : state :=
  mkState (ac_color st) (ac_color_hex st) (color_step st) (start_time st)
    (try_num st) (score_num st) (enable_submit st) v (miss_cnt st).
Definition with_miss_cnt (v : gmap string Z) (st : state) : state :=
  mkState (ac_color st) (ac_color_hex st) (color_step st) (start_time st)
    (try_num st) (score_num st) (enable_submit st) (score_history5 st) v.
Definition with_color_step (v : Z) (st : state) : state :=
  mkState (ac_color st) (ac_color_hex st) v (start_time st)
    (try_num st) (score_num st) (enable_submit st) (score_history5 st)
    (miss_cnt st).
Definition with_ac_color (v : option rgb) (st : state) : state :=
  mkState v (ac_color_hex st) (color_step st) (start_time st)
    (try_num st) (score_num st) (enable_submit st) (score_history5 st)
    (miss_cnt st).
Definition with_ac_color_hex (v : string) (st : state) : state :=
  mkState (ac_color st) v (color_step st) (start_time st)
    (try_num st) (score_num st) (enable_submit st) (score_history5 st)
    (miss_cnt st).
Definition with_start_time (v : option Z) (st : state) : state :=
  mkState (ac_color st) (ac_color_hex st) (color_step st) v
    (try_num st) (score_num st) (enable_submit st) (score_history5 st)
    (miss_cnt st).

(** What a call can end in besides a value. *)
Inductive js (A : Type) : Type :=
| Ret (a : A)
| Raise.                       (* a [TypeError] *)
Arguments Ret {A} a.
Arguments Raise {A}.

(** [update_timer()]: [undefined] ([Ret None]) when submissions are off;
    [start_time.getTime()] raises on an [undefined] [start_time]. *)
Definition update_timer (now : Z) (st : state) : js (option Z) :=
  if negb (enable_submit st) then Ret None
  else match start_time st with
       | None => Raise
       | Some t => Ret (Some (now - t))
       end.

(** The pairs [comment], [comment2] of the source, named. *)
Definition comment_tutorial : string * string :=
  ("| チュートリアルを完了しました！", "チュートリアル終了！").
Definition comment_first_try : string * string :=
  ("| 一発で白を見つけられました！", "一発で見つけられた！").
Definition comment_fast : string * string :=
  ("| 素早く白を見つけられました！", "素早く見つけられた！").
Definition comment_within_10 : string * string :=
  ("| 10回以内に白を見つけられました！", "10回以内に見つけた！").
Definition comment_none : string * string := ("", "").

(** The [if] ... [else if] chain that picks the comment; [time] is
    [undefined] or a number, and [undefined <= 10000] is false. *)
Definition comments (step tries : Z) (time : option Z) : string * string :=
  if negb (step =? 1)
  then comment_tutorial
  else if tries =? 1
  then comment_first_try
  else if match time with Some t => t <=? 10000 | None => false end
  then comment_fast
  else if tries <=? 10
  then comment_within_10
  else comment_none.

(** [for (const v of score_history5)] with its [break], entered with the
    running sum [ave]. *)
Fixpoint ave_loop (ave : Q) (history : list hist) : hist :=
  match history with
  | [] => final ave
  | placeholder :: _ => placeholder
  | final v :: rest => ave_loop (ave + v)%Q rest
  end.

(** [ave] after [if (ave != "---") ave /= 5]. *)
Definition average (history : list hist) : hist :=
  match ave_loop 0 history with
  | placeholder => placeholder
  | final total => final (total / 5)%Q
  end.

(** What [submit] did, with the values it put on the page. *)
Inductive outcome : Type :=
| Ignored                                (* the early [return] *)
| Hit (time : option Z) (comment comment2 : string)
    (ave : option hist)                  (* [None]: [ave_message] is empty *)
| Miss (col_hex : string) (count : Z) (dif : Q)
| Raised.

Definition submit (r g b : Z) (now : Z) (st : state) : state * outcome :=
  if negb (enable_submit st) then (st, Ignored)
  else
    let col_hex := ConvertRGBtoHex (r, g, b) in
    let st := with_try_num (try_num st + 1) st in
    if String.eqb col_hex (ac_color_hex st) then
      match update_timer now st with
      | Raise => (st, Raised)
      | Ret time =>
          let st := with_enable_submit false st in
          let '(comment, comment2) :=
            comments (color_step st) (try_num st) time in
          if color_step st =? 1 then
            let history := tail (score_history5 st) ++ [final (score_num st)] in
            (with_score_history5 history st,
             Hit time comment comment2 (Some (average history)))
          else (st, Hit time comment comment2 None)
      end
    else
      let count :=
        match miss_cnt st !! col_hex with
        | None => 1
        | Some n => n + 1
        end in
      let st := with_miss_cnt (<[col_hex := count]> (miss_cnt st)) st in
      match ac_color st with
      | None => (st, Raised)
      | Some (ar, ag, ab) =>
          let dif :=
            (inject_Z ((ar - r) ^ 2 + (ag - g) ^ 2 + (ab - b) ^ 2)
             / inject_Z (color_step st ^ 2))%Q in
          (with_score_num (score_num st - dif)%Q st, Miss col_hex count dif)
      end.

Definition lattice (dif : Z) : list rgb :=
  lattice_of (λ r g b, (255 - r * dif, 255 - g * dif, 255 - b * dif)).

(** The loop [for (let i = 0; i < num; ++i)] that writes one swatch per
    [list[i]] ([list_] here); [ConvertRGBtoHex(undefined)] raises.  The swatches are
    returned in place of the HTML text. *)
Definition swatches (num : Z) (list_ : list rgb) : js (list rgb) :=
  match mapM (λ i : nat, list_ !! i) (seq 0 (Z.to_nat num)) with
  | Some shown => Ret shown
  | None => Raise
  end.

(** [make_problem(num, dif)].  The state is returned also when the call
    raises, with the assignments made up to there. *)
Definition make_problem (num dif : Z) (now : Z) (st : state) (rng : Rng)
  : state * Rng * js (list rgb) :=
  let st := with_color_step dif st in
  let '(list_, rng) := shuffle (lattice dif) rng in
  match swatches num list_ with
  | Raise => (st, rng, Raise)
  | Ret shown =>
      let '(u, rng) := random rng in
      let st := with_ac_color (index list_ (floor_mul u num)) st in
      match ac_color st with
      | None => (st, rng, Raise)
      | Some ac =>
          let st := with_ac_color_hex (ConvertRGBtoHex ac) st in
          let st := with_miss_cnt ∅ st in
          let st := with_score_num (if dif =? 1 then 1000 else 100) st in
          let st := with_try_num 0 st in
          let st := with_start_time (Some now) st in
          let st := with_enable_submit true st in
          (st, rng, Ret shown)
      end
  end.
End Script.

(** ** part_001: the [state] object; only its palette differs *)

Module StateObj.
(** [targetColor] is [Color.fromHex('#FFFFFF')]; the loops push
    [targetColor.withDiff({ r, g, b })] and never read [dif]. *)
Definition lattice (targetColor : Color.t) : list Color.t :=
  lattice_of (λ r g b, Color.withDiff targetColor r g b).
End StateObj.

(** ** Vocabulary of the statements *)

(** A source that returns the same value at every call, and the value 0. *)
Definition zero_sample : sample := Sample 0 1 eq_refl.
Definition half_sample : sample := Sample 1 2 eq_refl.
Definition rng_const (u : sample) : Rng := mkRng (λ _, u) 0.

(** [c] is white with [r*step], [g*step], [b*step] taken off, for some
    [r], [g], [b] in 0..5. *)
Definition white_minus (step : Z) (c : Color.t) : Prop :=
  ∃ r g b : Z, 0 ≤ r ≤ 5 ∧ 0 ≤ g ≤ 5 ∧ 0 ≤ b ≤ 5
    ∧ c = Color.mk (255 - r * step) (255 - g * step) (255 - b * step).

(** What is said of the palette of a game made for [count] colours. *)
Definition palette_ok (count step : Z) (g : Classes.Game) : Prop :=
  Z.of_nat (length (Classes.colors g)) = count
  ∧ Forall (white_minus step) (Classes.colors g)
  ∧ NoDup (Classes.colors g)
  ∧ ∃ a, Classes.answer g = Some a ∧ a ∈ Classes.colors g.

(** The offsets [(r, g, b)] in the order the three loops visit them. *)
Definition offsets : list (Z * Z * Z) := lattice_of (λ r g b, (r, g, b)).

Definition offset_ok (o : Z * Z * Z) : Prop :=
  (0 ≤ o.1.1 ≤ 5) ∧ (0 ≤ o.1.2 ≤ 5) ∧ (0 ≤ o.2 ≤ 5).

#[local] Instance offset_ok_dec o : Decision (offset_ok o).
Proof. unfold offset_ok. apply _. Defined.

(** [c] occurs in [s]. *)
Fixpoint has_char (c : ascii) (s : string) : bool :=
  match s with
  | EmptyString => false
  | String c' rest => Ascii.eqb c c' || has_char c rest
  end.

(** Every channel is in 0..255. *)
Definition in_gamut (c : Color.t) : Prop :=
  (0 ≤ Color.r c < 256) ∧ (0 ≤ Color.g c < 256) ∧ (0 ≤ Color.b c < 256).

(** [paddedHex n] is two characters that [parseInt(_, 16)] reads as [n]. *)
Definition paddedHex_reads_back (n : Z) : Prop :=
  match Color.paddedHex n with
  | String h (String l EmptyString) => parseInt16_2 h l = Some n
  | _ => False
  end.

#[local] Instance paddedHex_reads_back_dec n : Decision (paddedHex_reads_back n).
Proof. unfold paddedHex_reads_back. repeat case_match; apply _. Defined.

(** [ColorToHex n] is two characters, neither of them [-], that
    [parseInt(_, 16)] reads as [n]. *)
Definition ColorToHex_reads_back (n : Z) : Prop :=
  match Script.ColorToHex n with
  | String h (String l EmptyString) =>
      parseInt16_2 h l = Some n ∧ h ≠ "-"%char ∧ l ≠ "-"%char
  | _ => False
  end.

#[local] Instance ColorToHex_reads_back_dec n : Decision (ColorToHex_reads_back n).
Proof. unfold ColorToHex_reads_back. repeat case_match; apply _. Defined.

(** A colour the player can click: every channel in 0..255. *)
Definition valid_rgb (col : Script.rgb) : Prop :=
  (0 ≤ col.1.1 < 256) ∧ (0 ≤ col.1.2 < 256) ∧ (0 ≤ col.2 < 256).

(** The sum of the squared differences of the channels. *)
Definition squaredDistance (c1 c2 : Script.rgb) : Z :=
  (c1.1.1 - c2.1.1) ^ 2 + (c1.1.2 - c2.1.2) ^ 2 + (c1.2 - c2.2) ^ 2.

(** [squaredDistance / step^2]. *)
Definition penalty (col ac : Script.rgb) (step : Z) : Q :=
  (inject_Z (squaredDistance ac col) / inject_Z (step ^ 2))%Q.

(** A round of the script is armed on the answer [ac], started at [t0]:
    the state [make_problem] leaves for a positive step. *)
Definition armed (st : Script.state) (ac : Script.rgb) (t0 : Z) : Prop :=
  Script.enable_submit st = true
  ∧ Script.ac_color st = Some ac
  ∧ Script.ac_color_hex st = Script.ConvertRGBtoHex ac
  ∧ Script.start_time st = Some t0
  ∧ 1 ≤ Script.color_step st
  ∧ ac.1.1 ≤ 255 ∧ ac.1.2 ≤ 255 ∧ ac.2 ≤ 255.

(** The same submission made [n] times in a row. *)
Fixpoint resubmit (n : nat) (r g b now : Z) (st : Script.state) : Script.state :=
  match n with
  | O => st
  | S n' => resubmit n' r g b now (Script.submit r g b now st).1
  end.

(** The number of misses recorded for [hex]; 0 when there is none. *)
Definition misses (st : Script.state) (hex : string) : Z :=
  default 0 (Script.miss_cnt st !! hex).

(** The round that [make_problem(200, 1)] sets up at time 0 when
    [Math.random()] returns 0 at every call.  Its answer is
    [(255, 255, 254)]. *)
Definition round_200_1 : Script.state :=
  (Script.make_problem 200 1 0 Script.initial (rng_const zero_sample)).1.1.

(** [round_200_1] in a session whose history is [history]. *)
Definition round_with_history (history : list Script.hist) : Script.state :=
  Script.with_score_history5 history round_200_1.

(** The array [[255 - r*step, 255 - g*step, 255 - b*step]] for some [r],
    [g], [b] in 0..5. *)
Definition rgb_white_minus (step : Z) (c : Script.rgb) : Prop :=
  ∃ r g b : Z, 0 ≤ r ≤ 5 ∧ 0 ≤ g ≤ 5 ∧ 0 ≤ b ≤ 5
    ∧ c = (255 - r * step, 255 - g * step, 255 - b * step).

(** The sixteen digits [toString(16)] writes. *)
Definition lower_hex_digits : list ascii :=
  ["0"; "1"; "2"; "3"; "4"; "5"; "6"; "7"; "8"; "9";
   "a"; "b"; "c"; "d"; "e"; "f"]%char.

(** The two digits [h], [l] are read as a number that [paddedHex] writes
    back as [h], [l]. *)
Definition digits_written_back (h l : ascii) : Prop :=
  match parseInt16_2 h l with
  | Some n => Color.paddedHex n = String h (String l EmptyString)
  | None => False
  end.

#[local] Instance digits_written_back_dec h l : Decision (digits_written_back h l).
Proof. unfold digits_written_back. destruct (parseInt16_2 h l); apply _. Defined.

(** A click on the swatch of the colour [c]: [View.showPalette] gives each
    swatch the handler [submit('${c}')], and [${c}] is [c.toString()]. *)
Definition click (c : Color.t) (now : Z) (pg : Classes.page)
  : Classes.page * option Classes.try_result :=
  Classes.submit (Color.toString c) now pg.

(** The pages that calls of [start] (for at least one colour) and [submit]
    lead to from the page as loaded. *)
Inductive page_reachable : Classes.page → Prop :=
| reach_initial (rng : Rng) : page_reachable (Classes.initial rng)
| reach_start (num dif now : Z) (pg : Classes.page) :
    1 ≤ num → page_reachable pg →
    page_reachable (Classes.start num dif now pg)
| reach_submit (hex : string) (now : Z) (pg : Classes.page) :
    page_reachable pg → page_reachable (Classes.submit hex now pg).1.

(** The game of the page, if any, was started and has an answer. *)
Definition page_ok (pg : Classes.page) : Prop :=
  ∀ g, Classes.game pg = Some g →
    (∃ t, Classes.startTime g = Some t)
    ∧ (∃ a, Classes.answer g = Some a)
    ∧ 0 ≤ Classes.tryCount g.

(** The clicks of [clicks], one after the other: each swatch carries the
    handler [submit(r, g, b)] of its own colour. *)
Fixpoint run_clicks (clicks : list Script.rgb) (now : Z) (st : Script.state)
  : Script.state :=
  match clicks with
  | [] => st
  | c :: rest => run_clicks rest now (Script.submit c.1.1 c.1.2 c.2 now st).1
  end.

(** The penalties of [clicks] against the answer [ac], added up. *)
Definition total_penalty (clicks : list Script.rgb) (ac : Script.rgb)
    (step : Z) : Q :=
  foldr (λ c acc, penalty c ac step + acc)%Q 0%Q clicks.

(** The states that calls of [make_problem] (for a count that is not
    negative) and [submit] lead to from the script as loaded. *)
Inductive script_reachable : Script.state → Prop :=
| sreach_initial : script_reachable Script.initial
| sreach_make_problem (num dif now : Z) (st : Script.state) (rng : Rng) :
    0 ≤ num → script_reachable st →
    script_reachable (Script.make_problem num dif now st rng).1.1
| sreach_submit (r g b now : Z) (st : Script.state) :
    script_reachable st → script_reachable (Script.submit r g b now st).1.


(** Three wrong clicks on [round_200_1], two of them on the same swatch. *)
Definition three_clicks : list Script.rgb :=
  [(252, 252, 251); (255, 255, 255); (252, 252, 251)].

(** ** The elapsed time as text (main.js, part_002) *)

(** [String(n)] for an integer [n]: decimal digits, a leading [-] for a
    negative number. *)
Definition toString10 (n : Z) : string :=
  DecimalString.NilZero.string_of_int (Z.to_int n).

(** [s.slice(-k)]: the last [k] characters, or all of [s] when it has
    fewer. *)
Definition slice_last (k : nat) (s : string) : string :=
  substring (String.length s - k) k s.

(** [submit]: [Math.floor(time/1000) + "." + ("00"+time%1000).slice(-3)]. *)
Definition time_text (time : Z) : string :=
  (toString10 (time / 1000) ++ "."
   ++ slice_last 3 ("00" ++ toString10 (Z.rem time 1000)))%string.

(** [update_timer], after ["Time<br>"]:
    [Math.floor(diff/1000) + "." + ("0"+Math.floor(diff/10)%100).slice(-2)]. *)
Definition timer_text (diff : Z) : string :=
  (toString10 (diff / 1000) ++ "."
   ++ slice_last 2 ("0" ++ toString10 (Z.rem (diff / 10) 100)))%string.

(** The integer a decimal text denotes. *)
Definition read_decimal (s : string) : option Z :=
  Z.of_int <$> DecimalString.NilZero.int_of_string s.

(** The [k] last characters of [pad] followed by [n] are [k] characters
    that read as [n]. *)
Definition padded_reads_back (k : nat) (pad : string) (n : Z) : Prop :=
  String.length (slice_last k (pad ++ toString10 n)) = k
  ∧ read_decimal (slice_last k (pad ++ toString10 n)) = Some n.

#[local] Instance padded_reads_back_dec k pad n :
  Decision (padded_reads_back k pad n).
Proof. unfold padded_reads_back. apply _. Defined.

(** ** main.js: the script before the history and the miss counter *)

Module Main.
Record state : Type := mkState {
  ac_color : option Script.rgb;
  ac_color_hex : string;
  color_step : Z;
  start_time : option Z;
  try_num : Z;
  score_num : Q;
  enable_submit : bool
}.

Definition initial : state :=
  {| ac_color := Some (-1, -1, -1);
     ac_color_hex := "";
     color_step := 0;
     start_time := None;
     try_num := 0;
     score_num := 0;
     enable_submit := false |}.

Definition update_timer (now : Z) (st : state) : Script.js (option Z) :=
  if negb (enable_submit st) then Script.Ret None
  else match start_time st with
       | None => Script.Raise
       | Some t => Script.Ret (Some (now - t))
       end.

Definition comment_tutorial : string * string :=
  ("| チュートリアルを完了しました！", "チュートリアル終了！").
Definition comment_first_try : string * string :=
  ("| 一発で白を見つけられました！", "一発で白を見つけられた！").
Definition comment_fast : string * string :=
  ("| 素早くで白を見つけられました！", "素早く白を見つけられた！").
Definition comment_within_10 : string * string :=
  ("| 10回以内に白を見つけられました！", "10回以内に見つけられた！").
Definition comment_none : string * string := ("", "").

Definition comments (step tries : Z) (time : option Z) : string * string :=
  if negb (step =? 1)
  then comment_tutorial
  else if tries =? 1
  then comment_first_try
  else if match time with Some t => t <=? 10000 | None => false end
  then comment_fast
  else if tries <=? 10
  then comment_within_10
  else comment_none.

Inductive outcome : Type :=
| Ignored
| Hit (time : option Z) (comment comment2 : string)
| Miss (col_hex : string) (dif : Q)
| Raised.

Definition submit (r g b : Z) (now : Z) (st : state) : state * outcome :=
  if negb (enable_submit st) then (st, Ignored)
  else
    let col_hex := Script.ConvertRGBtoHex (r, g, b) in
    let st :=
      {| ac_color := ac_color st; ac_color_hex := ac_color_hex st;
         color_step := color_step st; start_time := start_time st;
         try_num := try_num st + 1; score_num := score_num st;
         enable_submit := enable_submit st |} in
    if String.eqb col_hex (ac_color_hex st) then
      match update_timer now st with
      | Script.Raise => (st, Raised)
      | Script.Ret time =>
          let '(comment, comment2) :=
            comments (color_step st) (try_num st) time in
          ({| ac_color := ac_color st; ac_color_hex := ac_color_hex st;
              color_step := color_step st; start_time := start_time st;
              try_num := try_num st; score_num := score_num st;
              enable_submit := false |},
           Hit time comment comment2)
      end
    else
      match ac_color st with
      | None => (st, Raised)
      | Some (ar, ag, ab) =>
          let dif :=
            (inject_Z ((ar - r) ^ 2 + (ag - g) ^ 2 + (ab - b) ^ 2)
             / inject_Z (color_step st ^ 2))%Q in
          ({| ac_color := ac_color st; ac_color_hex := ac_color_hex st;
              color_step := color_step st; start_time := start_time st;
              try_num := try_num st; score_num := (score_num st - dif)%Q;
              enable_submit := enable_submit st |},
           Miss col_hex dif)
      end.

Definition make_problem (num dif : Z) (now : Z) (st : state) (rng : Rng)
  : state * Rng * Script.js (list Script.rgb) :=
  let st :=
    {| ac_color := ac_color st; ac_color_hex := ac_color_hex st;
       color_step := dif; start_time := start_time st;
       try_num := try_num st; score_num := score_num st;
       enable_submit := enable_submit st |} in
  let '(list_, rng) := shuffle (Script.lattice dif) rng in
  match Script.swatches num list_ with
  | Script.Raise => (st, rng, Script.Raise)
  | Script.Ret shown =>
      let '(u, rng) := random rng in
      match index list_ (floor_mul u num) with
      | None =>
          ({| ac_color := None; ac_color_hex := ac_color_hex st;
              color_step := color_step st; start_time := start_time st;
              try_num := try_num st; score_num := score_num st;
              enable_submit := enable_submit st |}, rng, Script.Raise)
      | Some ac =>
          ({| ac_color := Some ac;
              ac_color_hex := Script.ConvertRGBtoHex ac;
              color_step := dif;
              start_time := Some now;
              try_num := 0;
              score_num := if dif =? 1 then 1000 else 100;
              enable_submit := true |}, rng, Script.Ret shown)
      end
  end.
End Main.



(** ** part_001: the round kept in the [state] object *)

Module StateRound.
(** [acColor] is [null] at first and can become [undefined]; both are
    [None], and [eq] and [diff] treat them alike. *)
Record state : Type := mkState {
  acColor : option Color.t;
  tryCount : Z;
  score : Q;
  readyForSubmission : bool;
  startTime : option Z;
  colorStep : Z
}.

Definition initial : state :=
  {| acColor := None; tryCount := 0; score := 0;
     readyForSubmission := false; startTime := None; colorStep := 0 |}.

(** [updateTimer()]: -1 when submissions are off or nothing was started. *)
Definition updateTimer (now : Z) (st : state) : Z :=
  if negb (readyForSubmission st) then -1
  else match startTime st with
       | None => -1
       | Some t => now - t
       end.

Definition comment_tutorial : string * string :=
  ("| チュートリアルを完了しました！", "チュートリアル終了！").
Definition comment_first_try : string * string :=
  ("| 一発で白を見つけられました！", "一発で白を見つけられた！").
Definition comment_fast : string * string :=
  ("| 素早くで白を見つけられました！", "素早く白を見つけられた！").
Definition comment_none : string * string := ("", "").

Inductive outcome : Type :=
| NotReady                      (* the first [return] *)
| Unreadable                    (* the second [return] *)
| Hit (time : Z) (comment1 comment2 : string)
| Miss (diff : Q).

Definition submit (hex : string) (now : Z) (st : state) : state * outcome :=
  if negb (readyForSubmission st) then (st, NotReady)
  else
    match Color.fromHex hex with
    | None => (st, Unreadable)
    | Some color =>
        let st :=
          {| acColor := acColor st; tryCount := tryCount st + 1;
             score := score st; readyForSubmission := readyForSubmission st;
             startTime := startTime st; colorStep := colorStep st |} in
        if Color.eq color (acColor st) then
          let time := updateTimer now st in
          let st :=
            {| acColor := acColor st; tryCount := tryCount st;
               score := score st; readyForSubmission := false;
               startTime := startTime st; colorStep := colorStep st |} in
          let '(comment1, comment2) :=
            if negb (colorStep st =? 1) then comment_tutorial
            else if tryCount st =? 1 then comment_first_try
            else if time <=? 10000 then comment_fast
            else comment_none in
          (st, Hit time comment1 comment2)
        else
          let diff :=
            (inject_Z (Color.diff color (acColor st))
             / inject_Z (colorStep st ^ 2))%Q in
          ({| acColor := acColor st; tryCount := tryCount st;
              score := (score st - diff)%Q;
              readyForSubmission := readyForSubmission st;
              startTime := startTime st; colorStep := colorStep st |},
           Miss diff)
    end.

(** [make_problem(num, dif)]: the swatches written to the page are
    returned with the state; [None] stands for the [TypeError] of calling
    [withDiff] on [null], should [fromHex('#FFFFFF')] ever return it. *)
Definition make_problem (num dif : Z) (now : Z) (st : state) (rng : Rng)
  : state * Rng * option (list Color.t) :=
  let st :=
    {| acColor := acColor st; tryCount := tryCount st; score := score st;
       readyForSubmission := readyForSubmission st;
       startTime := startTime st; colorStep := dif |} in
  match Color.fromHex "#FFFFFF" with
  | None => (st, rng, None)
  | Some targetColor =>
      let '(list_, rng) := shuffle (StateObj.lattice targetColor) rng in
      let shown := slice0 num list_ in
      let '(u, rng) := random rng in
      ({| acColor := index list_ (floor_mul u num);
          tryCount := 0;
          score := if dif =? 1 then 1000 else 100;
          readyForSubmission := true;
          startTime := Some now;
          colorStep := dif |}, rng, Some shown)
  end.
End StateRound.

(** The 216 colours of part_001, which no step enters. *)
Definition wrapped_lattice : list Color.t :=
  StateObj.lattice (Color.mk 255 255 255).

(** A channel of part_001's palette: 255, or one of 0..4. *)
Definition wrapped_channel (v : Z) : Prop := v = 255 ∨ (0 ≤ v ≤ 4).

Definition wrapped_color (c : Color.t) : Prop :=
  wrapped_channel (Color.r c) ∧ wrapped_channel (Color.g c)
  ∧ wrapped_channel (Color.b c).

#[local] Instance wrapped_color_dec c : Decision (wrapped_color c).
Proof. unfold wrapped_color, wrapped_channel. apply _. Defined.

(** The history is some placeholders followed by scores, five in all. *)
Definition history_shape (history : list Script.hist) : Prop :=
  ∃ (k : nat) (vs : list Q),
    history = replicate k Script.placeholder ++ (Script.final <$> vs)
    ∧ (k + length vs = 5)%nat.

(** A round of three colours at step 3, freshly dealt. *)
Definition round_3_3 : Script.state :=
  (Script.make_problem 3 3 0 Script.initial (rng_const zero_sample)).1.1.


(** * Properties *)

Lemma floor_mul_range (u : sample) (n : Z) :
  0 < n → 0 ≤ floor_mul u n < n.
Proof.
  intros Hn. unfold floor_mul.
  destruct u as [p q Hlt]; simpl.
  apply N.ltb_lt in Hlt.
  assert (Hq : 0 ≤ Z.of_N p < Z.pos q) by lia.
  split.
  - apply Z.div_pos; [nia | lia].
  - apply Z.div_lt_upper_bound; [lia | nia].
Qed.

(** The index [j] drawn at step [i] of [shuffle] is one of [0..i]: with
    [i] below the length, both indices of the swap are inside the array. *)
Lemma shuffle_draw_in_range (u : sample) (i : nat) :
  (Z.to_nat (floor_mul u (Z.of_nat i + 1)) ≤ i)%nat.
Proof.
  pose proof (floor_mul_range u (Z.of_nat i + 1)). lia.
Qed.

Section ShuffleFacts.
Context {A : Type}.
#[local] Open Scope nat_scope.
Implicit Types (l : list A) (i j : nat).

Lemma swap_length i j l : length (swap i j l) = length l.
Proof.
  unfold swap. destruct (l !! j), (l !! i); trivial.
  by rewrite !length_insert.
Qed.

Lemma swap_lookup i j l k :
  i < length l → j < length l →
  swap i j l !! k =
    l !! (if decide (k = i) then j else if decide (k = j) then i else k).
Proof.
  intros Hi Hj. unfold swap.
  destruct (lookup_lt_is_Some_2 l j Hj) as [aj Haj].
  destruct (lookup_lt_is_Some_2 l i Hi) as [ai Hai].
  rewrite Haj, Hai.
  destruct (decide (k = j)) as [->|Hkj].
  - rewrite list_lookup_insert_eq by (by rewrite length_insert).
    destruct (decide (j = i)) as [->|]; congruence.
  - rewrite list_lookup_insert_ne by congruence.
    destruct (decide (k = i)) as [->|Hki].
    + rewrite list_lookup_insert_eq by done. congruence.
    + by rewrite list_lookup_insert_ne by congruence.
Qed.

Lemma swap_Permutation i j l : swap i j l ≡ₚ l.
Proof.
  destruct (decide (i < length l ∧ j < length l)) as [[Hi Hj]|Hout].
  - apply Permutation_inj. split; [apply swap_length|].
    exists (λ k, if decide (k = i) then j else if decide (k = j) then i else k).
    split; [|intros k; by apply swap_lookup].
    intros x y. repeat case_decide; intros; subst; congruence.
  - unfold swap.
    destruct (l !! j) eqn:Ej; [|done].
    destruct (l !! i) eqn:Ei; [|done].
    apply lookup_lt_Some in Ej, Ei. lia.
Qed.

Lemma shuffle_loop_Permutation i l rng : (shuffle_loop i l rng).1 ≡ₚ l.
Proof.
  revert l rng. induction i as [|i IH]; intros l rng; [done|].
  cbn [shuffle_loop]. destruct (random rng) as [u rng'].
  rewrite IH. apply swap_Permutation.
Qed.

Lemma shuffle_Permutation l rng : (shuffle l rng).1 ≡ₚ l.
Proof. apply shuffle_loop_Permutation. Qed.

Lemma shuffle_length l rng : length (shuffle l rng).1 = length l.
Proof. apply Permutation_length, shuffle_Permutation. Qed.
End ShuffleFacts.

Section ShuffleStore.
Context {A : Type}.
Implicit Types (σ : gmap loc (list A)) (l : list A).

Lemma shuffle_loop_ref_spec i a σ l rng :
  σ !! a = Some l →
  shuffle_loop_ref i a σ rng =
    (<[a := (shuffle_loop i l rng).1]> σ, (shuffle_loop i l rng).2).
Proof.
  revert σ l rng. induction i as [|i IH]; intros σ l rng Ha.
  - simpl. by rewrite insert_id.
  - cbn [shuffle_loop_ref shuffle_loop]. destruct (random rng) as [u rng'].
    unfold store_swap. rewrite Ha.
    erewrite IH by apply lookup_insert_eq.
    by rewrite insert_insert_eq.
Qed.

Lemma shuffle_ref_spec arg σ l rng :
  σ !! arg = Some l →
  shuffle_ref arg σ rng =
    Some (fresh (dom σ), <[fresh (dom σ) := (shuffle l rng).1]> σ,
          (shuffle l rng).2).
Proof.
  intros Harg. unfold shuffle_ref. rewrite Harg.
  erewrite shuffle_loop_ref_spec by apply lookup_insert_eq.
  by rewrite insert_insert_eq.
Qed.
End ShuffleStore.

(** C10. [shuffle], called with a reference [arg] to an array holding
    [xs], returns a reference to an array that is not the caller's, whose
    contents are a permutation of [xs] (the list [shuffle xs] computes); the
    caller's array, and every other array of the store, holds what it held
    before. *)
Theorem shuffle_permutes_a_copy {A : Type} (σ : gmap loc (list A))
    (arg : loc) (xs : list A) (rng : Rng) :
  σ !! arg = Some xs →
  ∃ array σ' rng' ys,
    shuffle_ref arg σ rng = Some (array, σ', rng')
    ∧ σ' !! array = Some ys
    ∧ ys ≡ₚ xs
    ∧ ys = (shuffle xs rng).1
    ∧ array ≠ arg
    ∧ σ' !! arg = Some xs
    ∧ ∀ a, a ≠ array → σ' !! a = σ !! a.
Proof.
  intros Harg.
  assert (Hfresh : fresh (dom σ) ∉ dom σ) by apply is_fresh.
  assert (Hne : fresh (dom σ) ≠ arg).
  { intros Heq. apply Hfresh. rewrite Heq. apply elem_of_dom. eauto. }
  eexists _, _, _, _. split; [by apply shuffle_ref_spec|].
  split; [apply lookup_insert_eq|].
  split; [apply shuffle_Permutation|].
  split; [done|]. split; [done|].
  split.
  - by rewrite lookup_insert_ne.
  - intros a Ha. by rewrite lookup_insert_ne.
Qed.

Lemma shuffle_permutes_a_copy_witness :
  ∃ array σ' rng' ys,
    shuffle_ref 1%positive {[1%positive := [10; 20; 30]]}
      (rng_const zero_sample) = Some (array, σ', rng')
    ∧ σ' !! array = Some ys
    ∧ ys ≡ₚ [10; 20; 30]
    ∧ ys = (shuffle [10; 20; 30] (rng_const zero_sample)).1
    ∧ array ≠ 1%positive
    ∧ σ' !! 1%positive = Some [10; 20; 30]
    ∧ ∀ a, a ≠ array →
        σ' !! a = ({[1%positive := [10; 20; 30]]} : gmap loc (list Z)) !! a.
Proof.
  apply (shuffle_permutes_a_copy {[1%positive := [10; 20; 30]]} 1%positive).
  reflexivity.
Defined.

(** ** The lattice of 216 colours *)

Lemma lattice_of_offsets {A : Type} (item : Z → Z → Z → A) :
  lattice_of item = (λ o, item o.1.1 o.1.2 o.2) <$> offsets.
Proof. reflexivity. Qed.

Lemma offsets_length : length offsets = 216%nat.
Proof. reflexivity. Qed.

Lemma offsets_NoDup : NoDup offsets.
Proof. apply (bool_decide_unpack _). vm_compute. exact I. Qed.

Lemma offsets_ok : Forall offset_ok offsets.
Proof. apply (bool_decide_unpack _). vm_compute. exact I. Qed.

Lemma lattice_of_length {A : Type} (item : Z → Z → Z → A) :
  length (lattice_of item) = 216%nat.
Proof. reflexivity. Qed.

Lemma rem_256_small (n : Z) : 0 ≤ n < 256 → Z.rem n 256 = n.
Proof. intros. by apply Z.rem_small. Qed.

Lemma cloneWithDiff_white (step r g b : Z) :
  1 ≤ step → 5 * step ≤ 255 → offset_ok (r, g, b) →
  Color.cloneWithDiff Classes.white r g b step
  = Color.mk (255 - r * step) (255 - g * step) (255 - b * step).
Proof.
  intros H1 H5 (Hr & Hg & Hb). simpl in Hr, Hg, Hb.
  unfold Color.cloneWithDiff, Color.new, Classes.white. simpl.
  assert (0 ≤ r * step ≤ 5 * step) by (split; [apply Z.mul_nonneg_nonneg | apply Z.mul_le_mono_nonneg_r]; lia).
  assert (0 ≤ g * step ≤ 5 * step) by (split; [apply Z.mul_nonneg_nonneg | apply Z.mul_le_mono_nonneg_r]; lia).
  assert (0 ≤ b * step ≤ 5 * step) by (split; [apply Z.mul_nonneg_nonneg | apply Z.mul_le_mono_nonneg_r]; lia).
  change (Z.rem 255 256) with 255.
  rewrite !rem_256_small by lia. reflexivity.
Qed.

Lemma lattice_white_minus (step : Z) :
  1 ≤ step → 5 * step ≤ 255 → Forall (white_minus step) (Classes.lattice step).
Proof.
  intros H1 H5. unfold Classes.lattice. rewrite lattice_of_offsets.
  apply Forall_fmap. eapply Forall_impl; [apply offsets_ok|].
  intros [[r g] b] Hok. simpl.
  exists r, g, b. pose proof Hok as (Hr & Hg & Hb). simpl in Hr, Hg, Hb.
  split_and!; try lia. by apply cloneWithDiff_white.
Qed.

Lemma lattice_NoDup (step : Z) :
  1 ≤ step → 5 * step ≤ 255 → NoDup (Classes.lattice step).
Proof.
  intros H1 H5. unfold Classes.lattice. rewrite lattice_of_offsets.
  apply NoDup_fmap_2_strong; [|apply offsets_NoDup].
  intros [[r1 g1] b1] [[r2 g2] b2] Ho1 Ho2.
  pose proof offsets_ok as Hall. rewrite Forall_forall in Hall.
  pose proof (Hall _ Ho1) as Hok1. pose proof (Hall _ Ho2) as Hok2.
  simpl. rewrite !cloneWithDiff_white by done.
  intros [= Hr Hg Hb].
  f_equal; [f_equal|]; nia.
Qed.

(** ** The palette of a [Game] *)

Lemma slice0_take {A : Type} (n : Z) (l : list A) :
  0 ≤ n → slice0 n l = take (Z.to_nat n) l.
Proof. intros Hn. unfold slice0. by rewrite (proj2 (Z.ltb_ge n 0)). Qed.

Lemma index_floor_mul {A : Type} (l : list A) (u : sample) :
  l ≠ [] → ∃ a, index l (floor_mul u (Z.of_nat (length l))) = Some a ∧ a ∈ l.
Proof.
  intros Hl.
  assert (Hlen : 0 < Z.of_nat (length l)) by (destruct l; [done | simpl; lia]).
  pose proof (floor_mul_range u _ Hlen) as Hk.
  unfold index. rewrite (proj2 (Z.ltb_ge _ 0)) by lia.
  destruct (lookup_lt_is_Some_2 l (Z.to_nat (floor_mul u (Z.of_nat (length l)))))
    as [a Ha]; [lia|].
  exists a. split; [done|]. by eapply list_elem_of_lookup_2.
Qed.

Lemma Game_new_colors (num step : Z) (rng : Rng) :
  0 ≤ num →
  Classes.colors (Classes.Game_new num step rng).1
  = take (Z.to_nat num) (shuffle (Classes.lattice step) rng).1.
Proof.
  intros Hnum. unfold Classes.Game_new.
  destruct (shuffle (Classes.lattice step) rng) as [shuffled rng1].
  destruct (random rng1) as [u rng2]. cbn [fst Classes.colors].
  by apply slice0_take.
Qed.

Lemma Game_new_answer (num step : Z) (rng : Rng) :
  Classes.colors (Classes.Game_new num step rng).1 ≠ [] →
  ∃ a, Classes.answer (Classes.Game_new num step rng).1 = Some a
       ∧ a ∈ Classes.colors (Classes.Game_new num step rng).1.
Proof.
  unfold Classes.Game_new.
  destruct (shuffle (Classes.lattice step) rng) as [shuffled rng1].
  destruct (random rng1) as [u rng2]. cbn [fst Classes.colors Classes.answer].
  apply index_floor_mul.
Qed.

(** C1, amended.  For every count in [1,216], every step from 1 to 51 (so
    that no channel leaves 0..255) and every random source, the game's
    palette has exactly [count] colours, each white minus
    [(r*step, g*step, b*step)] for some [r], [g], [b] in 0..5, no colour
    occurs twice, and the answer is one of the colours of the palette. *)
Theorem Game_palette (count step : Z) (rng : Rng) :
  1 ≤ count ≤ 216 → 1 ≤ step → 5 * step ≤ 255 →
  palette_ok count step (Classes.Game_new count step rng).1.
Proof.
  intros Hc H1 H5. unfold palette_ok.
  pose proof (shuffle_Permutation (Classes.lattice step) rng) as Hperm.
  pose proof (shuffle_length (Classes.lattice step) rng) as Hlen.
  unfold Classes.lattice in Hlen at 2. rewrite lattice_of_length in Hlen.
  assert (Hcount :
    length (Classes.colors (Classes.Game_new count step rng).1)
    = Z.to_nat count).
  { rewrite Game_new_colors by lia. apply length_take_le. lia. }
  split; [lia|].
  split.
  { rewrite Game_new_colors by lia.
    apply Forall_take. rewrite Hperm. by apply lattice_white_minus. }
  split.
  { rewrite Game_new_colors by lia.
    apply (sublist_NoDup _ (shuffle (Classes.lattice step) rng).1);
      [|apply sublist_take].
    rewrite Hperm. by apply lattice_NoDup. }
  apply Game_new_answer. intros Hnil. rewrite Hnil in Hcount.
  simpl in Hcount. lia.
Qed.

Lemma Game_palette_witness :
  palette_ok 200 1 (Classes.Game_new 200 1 (rng_const half_sample)).1.
Proof. apply (Game_palette 200 1 (rng_const half_sample)); lia. Defined.

(** The claim as written fails at step 256 (and so for "every positive
    step"): the six values [255 - r*256] collapse to [255] and [-1], and a
    palette of 216 colours repeats colours. *)
Lemma Game_palette_step_256 :
  ¬ palette_ok 216 256 (Classes.Game_new 216 256 (rng_const zero_sample)).1.
Proof.
  intros (_ & _ & Hnd & _). revert Hnd.
  apply (bool_decide_unpack _). vm_compute. exact I.
Qed.

(** ** The class [Color] *)

(** C7. For non-negative integers the constructor stores each channel
    reduced modulo 256: it wraps and does not clamp, and red = 260 is
    stored as 4.  (Negative inputs are outside the documented domain; see
    [Color_new_negative] for what the code does with them.) *)
Theorem Color_new_wraps (r g b : Z) :
  0 ≤ r → 0 ≤ g → 0 ≤ b →
  Color.new r g b = Color.mk (r mod 256) (g mod 256) (b mod 256)
  ∧ Color.r (Color.new 260 g b) = 4
  ∧ 0 ≤ Color.r (Color.new r g b) < 256.
Proof.
  intros Hr Hg Hb. unfold Color.new.
  rewrite !Z.rem_mod_nonneg by lia.
  split; [done|]. split; [done|]. simpl. apply Z.mod_pos_bound. lia.
Qed.

Lemma Color_new_wraps_witness :
  Color.new 260 300 255 = Color.mk (260 mod 256) (300 mod 256) (255 mod 256)
  ∧ Color.r (Color.new 260 300 255) = 4
  ∧ 0 ≤ Color.r (Color.new 260 300 255) < 256.
Proof. apply (Color_new_wraps 260 300 255); lia. Defined.

(** [%] keeps the sign of a negative input: -1 is stored as -1, not 255. *)
Lemma Color_new_negative : Color.new (-1) (-256) (-257) = Color.mk (-1) 0 (-1).
Proof. reflexivity. Qed.

Lemma hex_digit_value_range (c : ascii) (d : Z) :
  hex_digit_value c = Some d → 0 ≤ d ≤ 15.
Proof.
  destruct c as [[] [] [] [] [] [] [] []]; vm_compute; intros [= <-];
    split; discriminate.
Qed.

Lemma parseInt16_2_range (c1 c2 : ascii) (n : Z) :
  parseInt16_2 c1 c2 = Some n → 0 ≤ n < 256.
Proof.
  unfold parseInt16_2.
  destruct (hex_digit_value c1) as [d1|] eqn:E1; [|done].
  destruct (hex_digit_value c2) as [d2|] eqn:E2; [|done].
  simpl. intros [= <-].
  apply hex_digit_value_range in E1, E2. lia.
Qed.

(** The first half of C4: a [#] followed by six hexadecimal digits, in
    either case, is read as the colour the digits spell. *)
Lemma fromHex_well_formed (a1 a2 b1 b2 c1 c2 : ascii) (r g b : Z) :
  parseInt16_2 a1 a2 = Some r →
  parseInt16_2 b1 b2 = Some g →
  parseInt16_2 c1 c2 = Some b →
  Color.fromHex
    (String "#" (String a1 (String a2 (String b1 (String b2
      (String c1 (String c2 EmptyString)))))))
  = Some (Color.mk r g b).
Proof.
  intros Hr Hg Hb. unfold Color.fromHex, regex_match, match_here.
  rewrite Hr, Hg, Hb. simpl.
  apply parseInt16_2_range in Hr, Hg, Hb.
  unfold Color.new. by rewrite !rem_256_small.
Qed.

Example fromHex_mixed_case :
  Color.fromHex "#FfFffE" = Some (Color.mk 255 255 254).
Proof. reflexivity. Qed.

Lemma match_here_hash (s : string) :
  is_Some (match_here s) → ∃ rest, s = String "#" rest.
Proof.
  destruct s as [|c rest]; [by intros [? [=]]|].
  destruct (Ascii.eqb_spec c "#") as [->|Hc]; [eauto|].
  intros [m Hm]. exfalso. apply Hc.
  unfold match_here in Hm.
  destruct c as [[] [] [] [] [] [] [] []]; try discriminate Hm. reflexivity.
Qed.

(** A string without [#] is refused. *)
Lemma fromHex_no_hash (s : string) :
  has_char "#" s = false → Color.fromHex s = None.
Proof.
  unfold Color.fromHex. intros Hs.
  assert (Hm : regex_match s = None); [|by rewrite Hm].
  induction s as [|c rest IH]; [done|].
  simpl in Hs. apply orb_false_iff in Hs as [Hc Hrest].
  cbn [regex_match].
  destruct (match_here (String c rest)) as [m|] eqn:Em; [|by apply IH].
  destruct (match_here_hash (String c rest)) as [rest' [= -> _]]; [by eauto|].
  done.
Qed.

Lemma fromHex_no_hash_witness : Color.fromHex "ffffff" = None.
Proof. apply fromHex_no_hash. reflexivity. Defined.

(** A string of fewer than seven characters is refused. *)
Lemma fromHex_short (s : string) :
  (String.length s < 7)%nat → Color.fromHex s = None.
Proof.
  unfold Color.fromHex. intros Hs.
  assert (Hm : regex_match s = None); [|by rewrite Hm].
  induction s as [|c rest IH]; [done|].
  cbn [regex_match].
  assert (Hhere : match_here (String c rest) = None).
  { unfold match_here.
    destruct c as [[] [] [] [] [] [] [] []]; try reflexivity.
    do 6 (destruct rest as [|? rest]; [reflexivity|]).
    simpl in Hs. lia. }
  rewrite Hhere. apply IH. simpl in Hs. lia.
Qed.

Lemma fromHex_short_witness : Color.fromHex "#fffff" = None.
Proof. apply fromHex_short. simpl. lia. Defined.

(** C4, where the code departs from it: the pattern carries no [^] and no
    [$], so a string that merely contains [#] and six hexadecimal digits is
    accepted, whatever its length and whatever stands before the [#]. *)
Theorem fromHex_accepts_longer_strings :
  Color.fromHex "#1234567" = Some (Color.mk 18 52 86)
  ∧ Color.fromHex "x#ffffff" = Some (Color.mk 255 255 255)
  ∧ Color.fromHex "#12345g#abcdefzz" = Some (Color.mk 171 205 239).
Proof. split_and!; reflexivity. Qed.

(** ** Hexadecimal text and back *)

Lemma paddedHex_reads_back_all :
  Forall paddedHex_reads_back (seqZ 0 256).
Proof. apply (bool_decide_unpack _). vm_compute. exact I. Qed.

Lemma paddedHex_in_gamut (n : Z) :
  0 ≤ n < 256 →
  ∃ h l, Color.paddedHex n = String h (String l EmptyString)
         ∧ parseInt16_2 h l = Some n.
Proof.
  intros Hn.
  pose proof paddedHex_reads_back_all as Hall.
  rewrite Forall_forall in Hall.
  specialize (Hall n). unfold paddedHex_reads_back in Hall.
  destruct (Color.paddedHex n) as [|h [|l [|? ?]]];
    try (exfalso; apply Hall, elem_of_seqZ; lia).
  exists h, l. split; [done|]. apply Hall, elem_of_seqZ. lia.
Qed.

(** The round trip of C8 on every colour whose channels are in 0..255. *)
Lemma fromHex_toString_in_gamut (c : Color.t) :
  in_gamut c → Color.fromHex (Color.toString c) = Some c.
Proof.
  destruct c as [r g b]. intros (Hr & Hg & Hb). simpl in Hr, Hg, Hb.
  destruct (paddedHex_in_gamut r Hr) as (r1 & r2 & Er & Pr).
  destruct (paddedHex_in_gamut g Hg) as (g1 & g2 & Eg & Pg).
  destruct (paddedHex_in_gamut b Hb) as (b1 & b2 & Eb & Pb).
  unfold Color.toString. cbn [Color.r Color.g Color.b].
  rewrite Er, Eg, Eb. simpl String.append.
  by apply fromHex_well_formed.
Qed.

Lemma white_minus_in_gamut (step : Z) (c : Color.t) :
  1 ≤ step → 5 * step ≤ 255 → white_minus step c → in_gamut c.
Proof.
  intros H1 H5 (r & g & b & Hr & Hg & Hb & ->). unfold in_gamut. simpl.
  assert (0 ≤ r * step ≤ 5 * step) by (split; [apply Z.mul_nonneg_nonneg | apply Z.mul_le_mono_nonneg_r]; lia).
  assert (0 ≤ g * step ≤ 5 * step) by (split; [apply Z.mul_nonneg_nonneg | apply Z.mul_le_mono_nonneg_r]; lia).
  assert (0 ≤ b * step ≤ 5 * step) by (split; [apply Z.mul_nonneg_nonneg | apply Z.mul_le_mono_nonneg_r]; lia).
  lia.
Qed.

(** C8 holds for the steps the game is played with: up to step 51 every
    colour of every palette survives [toString] followed by [fromHex]. *)
Lemma roundtrip_up_to_step_51 (count step : Z) (rng : Rng) (c : Color.t) :
  1 ≤ count ≤ 216 → 1 ≤ step → 5 * step ≤ 255 →
  c ∈ Classes.colors (Classes.Game_new count step rng).1 →
  Color.fromHex (Color.toString c) = Some c.
Proof.
  intros Hc H1 H5 Hin.
  rewrite Game_new_colors in Hin by lia.
  apply elem_of_take in Hin as (i & Hi & _).
  apply list_elem_of_lookup_2 in Hi.
  rewrite (shuffle_Permutation (Classes.lattice step) rng) in Hi.
  pose proof (lattice_white_minus step H1 H5) as Hall.
  rewrite Forall_forall in Hall.
  apply fromHex_toString_in_gamut, (white_minus_in_gamut step); auto.
Qed.

Lemma roundtrip_up_to_step_51_witness :
  Color.fromHex (Color.toString (Color.mk 255 255 253)) = Some (Color.mk 255 255 253).
Proof.
  apply (roundtrip_up_to_step_51 200 1 (rng_const zero_sample)); [lia..|].
  apply (bool_decide_unpack _). vm_compute. exact I.
Defined.

(** C8, where the code departs from it.  At step 52 the palette of 216
    colours holds white minus [(0, 0, 5*52)], whose blue channel the
    constructor stores as -5; [paddedHex] prints it as [-5], and [fromHex]
    refuses the text. *)
Theorem roundtrip_fails_at_step_52 :
  let c := Color.mk 255 255 (-5) in
  c ∈ Classes.colors (Classes.Game_new 216 52 (rng_const zero_sample)).1
  ∧ c = Color.cloneWithDiff Classes.white 0 0 5 52
  ∧ Color.toString c = "#ffff-5"
  ∧ Color.fromHex (Color.toString c) = None.
Proof.
  split_and!; try reflexivity.
  apply (bool_decide_unpack _). vm_compute. exact I.
Qed.

(** ** The script: hexadecimal text of a colour *)

Lemma ColorToHex_reads_back_all :
  Forall ColorToHex_reads_back (seqZ 0 256).
Proof. apply (bool_decide_unpack _). vm_compute. exact I. Qed.

Lemma ColorToHex_in_gamut (n : Z) :
  0 ≤ n < 256 →
  ∃ h l, Script.ColorToHex n = String h (String l EmptyString)
         ∧ parseInt16_2 h l = Some n ∧ h ≠ "-"%char ∧ l ≠ "-"%char.
Proof.
  intros Hn.
  pose proof ColorToHex_reads_back_all as Hall.
  rewrite Forall_forall in Hall.
  specialize (Hall n). unfold ColorToHex_reads_back in Hall.
  destruct (Script.ColorToHex n) as [|h [|l [|? ?]]];
    try (exfalso; apply Hall, elem_of_seqZ; lia).
  exists h, l. split; [done|]. apply Hall, elem_of_seqZ. lia.
Qed.

Lemma has_char_app (c : ascii) (s1 s2 : string) :
  has_char c (s1 ++ s2) = has_char c s1 || has_char c s2.
Proof.
  induction s1 as [|c1 s1 IH]; [done|].
  simpl. by rewrite IH, orb_assoc.
Qed.

Lemma ColorToHex_negative (n : Z) :
  n < 0 → has_char "-" (Script.ColorToHex n) = true.
Proof.
  intros Hn. destruct n as [|p|p]; try lia.
  unfold Script.ColorToHex, toString16. cbn [Z.to_hex_int NilZero.string_of_int].
  destruct (String.length _ =? 1)%nat; reflexivity.
Qed.

Lemma ColorToHex_in_gamut_no_dash (n : Z) :
  0 ≤ n < 256 → has_char "-" (Script.ColorToHex n) = false.
Proof.
  intros Hn. destruct (ColorToHex_in_gamut n Hn) as (h & l & -> & _ & Hh & Hl).
  cbn [has_char]. apply Ascii.eqb_neq in Hh, Hl.
  rewrite (Ascii.eqb_sym "-" h), (Ascii.eqb_sym "-" l), Hh, Hl. reflexivity.
Qed.

(** On colours the player can click and answers with no channel above
    255 (every colour a palette holds), equal text means equal colour: the
    test [col_hex == ac_color_hex] decides whether the click is the answer. *)
Lemma ConvertRGBtoHex_inj (col ac : Script.rgb) :
  valid_rgb col → ac.1.1 ≤ 255 → ac.1.2 ≤ 255 → ac.2 ≤ 255 →
  Script.ConvertRGBtoHex col = Script.ConvertRGBtoHex ac → col = ac.
Proof.
  destruct col as [[r g] b], ac as [[ar ag] ab].
  intros (Hr & Hg & Hb) Har Hag Hab Heq.
  simpl in Hr, Hg, Hb, Har, Hag, Hab.
  assert (Hdash : has_char "-" (Script.ConvertRGBtoHex (ar, ag, ab)) = false).
  { rewrite <- Heq. unfold Script.ConvertRGBtoHex.
    by rewrite !has_char_app, !ColorToHex_in_gamut_no_dash. }
  unfold Script.ConvertRGBtoHex in Hdash. rewrite !has_char_app in Hdash.
  apply orb_false_iff in Hdash as [Hd1 Hd23].
  apply orb_false_iff in Hd23 as [Hd2 Hd3].
  assert (0 ≤ ar).
  { destruct (decide (ar < 0)) as [Hneg|]; [|lia].
    apply ColorToHex_negative in Hneg. congruence. }
  assert (0 ≤ ag).
  { destruct (decide (ag < 0)) as [Hneg|]; [|lia].
    apply ColorToHex_negative in Hneg. congruence. }
  assert (0 ≤ ab).
  { destruct (decide (ab < 0)) as [Hneg|]; [|lia].
    apply ColorToHex_negative in Hneg. congruence. }
  destruct (ColorToHex_in_gamut r) as (r1 & r2 & Er & Pr & _); [lia|].
  destruct (ColorToHex_in_gamut g) as (g1 & g2 & Eg & Pg & _); [lia|].
  destruct (ColorToHex_in_gamut b) as (b1 & b2 & Eb & Pb & _); [lia|].
  destruct (ColorToHex_in_gamut ar) as (x1 & x2 & Ex & Px & _); [lia|].
  destruct (ColorToHex_in_gamut ag) as (y1 & y2 & Ey & Py & _); [lia|].
  destruct (ColorToHex_in_gamut ab) as (z1 & z2 & Ez & Pz & _); [lia|].
  unfold Script.ConvertRGBtoHex in Heq.
  rewrite Er, Eg, Eb, Ex, Ey, Ez in Heq. simpl in Heq.
  injection Heq as -> -> -> -> -> ->. congruence.
Qed.

(** ** The script: [submit] *)

Lemma squaredDistance_sym (c1 c2 : Script.rgb) :
  squaredDistance c1 c2 = squaredDistance c2 c1.
Proof. unfold squaredDistance. ring. Qed.

(** One wrong click on an armed round. *)
Lemma submit_miss (st : Script.state) (ac : Script.rgb) (t0 r g b now : Z) :
  armed st ac t0 → valid_rgb (r, g, b) → (r, g, b) ≠ ac →
  Script.submit r g b now st =
    (Script.with_score_num
       (Script.score_num st - penalty (r, g, b) ac (Script.color_step st))%Q
       (Script.with_miss_cnt
          (<[Script.ConvertRGBtoHex (r, g, b) :=
               misses st (Script.ConvertRGBtoHex (r, g, b)) + 1]>
             (Script.miss_cnt st))
          (Script.with_try_num (Script.try_num st + 1) st)),
     Script.Miss (Script.ConvertRGBtoHex (r, g, b))
       (misses st (Script.ConvertRGBtoHex (r, g, b)) + 1)
       (penalty (r, g, b) ac (Script.color_step st))).
Proof.
  intros (Hen & Hac & Hhex & Ht0 & Hstep & Hr & Hg & Hb) Hvalid Hne.
  unfold Script.submit. rewrite Hen. cbn [negb].
  cbn [Script.with_try_num Script.ac_color_hex Script.miss_cnt Script.ac_color
       Script.with_miss_cnt Script.color_step Script.score_num].
  rewrite Hhex.
  destruct (String.eqb_spec (Script.ConvertRGBtoHex (r, g, b))
              (Script.ConvertRGBtoHex ac)) as [Heq|_].
  { exfalso. apply Hne. by apply ConvertRGBtoHex_inj. }
  rewrite Hac. destruct ac as [[ar ag] ab].
  assert (Hcount :
    match Script.miss_cnt st !! Script.ConvertRGBtoHex (r, g, b) with
    | Some n => n + 1
    | None => 1
    end = misses st (Script.ConvertRGBtoHex (r, g, b)) + 1).
  { unfold misses. by destruct (Script.miss_cnt st !! _). }
  rewrite Hcount.
  assert (Hpen :
    (inject_Z ((ar - r) ^ 2 + (ag - g) ^ 2 + (ab - b) ^ 2)
       / inject_Z (Script.color_step st ^ 2))%Q
    = penalty (r, g, b) (ar, ag, ab) (Script.color_step st)).
  { reflexivity. }
  rewrite Hpen. reflexivity.
Qed.

Lemma submit_miss_armed (st : Script.state) (ac : Script.rgb) (t0 r g b now : Z) :
  armed st ac t0 → valid_rgb (r, g, b) → (r, g, b) ≠ ac →
  armed (Script.submit r g b now st).1 ac t0
  ∧ Script.color_step (Script.submit r g b now st).1 = Script.color_step st.
Proof.
  intros Harmed Hvalid Hne. rewrite (submit_miss st ac t0) by done.
  split; [|done]. apply Harmed.
Qed.

(** The right click on an armed round. *)
Lemma submit_hit (st : Script.state) (ac : Script.rgb) (t0 now : Z) :
  armed st ac t0 →
  Script.submit ac.1.1 ac.1.2 ac.2 now st =
    let st1 :=
      Script.with_enable_submit false
        (Script.with_try_num (Script.try_num st + 1) st) in
    let cs :=
      Script.comments (Script.color_step st) (Script.try_num st + 1)
        (Some (now - t0)) in
    if Script.color_step st =? 1
    then
      let history :=
        tail (Script.score_history5 st) ++ [Script.final (Script.score_num st)] in
      (Script.with_score_history5 history st1,
       Script.Hit (Some (now - t0)) cs.1 cs.2 (Some (Script.average history)))
    else (st1, Script.Hit (Some (now - t0)) cs.1 cs.2 None).
Proof.
  intros (Hen & Hac & Hhex & Ht0 & Hstep & Hr & Hg & Hb).
  destruct ac as [[ar ag] ab]. cbn [fst snd].
  unfold Script.submit. rewrite Hen. cbn [negb].
  cbn [Script.with_try_num Script.ac_color_hex].
  rewrite Hhex, String.eqb_refl.
  unfold Script.update_timer.
  cbn [Script.with_try_num Script.enable_submit Script.start_time].
  rewrite Hen, Ht0. cbn [negb].
  cbn [Script.with_enable_submit Script.with_try_num Script.color_step
       Script.try_num Script.score_history5 Script.score_num].
  destruct (Script.comments _ _ _) as [c c2]. cbn [fst snd].
  destruct (Script.color_step st =? 1); reflexivity.
Qed.

Lemma misses_after_miss (st : Script.state) (ac : Script.rgb) (t0 r g b now : Z) :
  armed st ac t0 → valid_rgb (r, g, b) → (r, g, b) ≠ ac →
  misses (Script.submit r g b now st).1 (Script.ConvertRGBtoHex (r, g, b))
  = misses st (Script.ConvertRGBtoHex (r, g, b)) + 1.
Proof.
  intros Harmed Hvalid Hne. rewrite (submit_miss st ac t0) by done.
  unfold misses at 1. cbn [fst Script.with_score_num Script.with_miss_cnt
    Script.miss_cnt]. by rewrite lookup_insert_eq.
Qed.

Lemma resubmit_miss (n : nat) (st : Script.state) (ac : Script.rgb)
    (t0 r g b now : Z) :
  armed st ac t0 → valid_rgb (r, g, b) → (r, g, b) ≠ ac →
  armed (resubmit n r g b now st) ac t0
  ∧ Script.color_step (resubmit n r g b now st) = Script.color_step st
  ∧ (Script.score_num (resubmit n r g b now st)
     == Script.score_num st
        - inject_Z (Z.of_nat n) * penalty (r, g, b) ac (Script.color_step st))%Q
  ∧ misses (resubmit n r g b now st) (Script.ConvertRGBtoHex (r, g, b))
    = misses st (Script.ConvertRGBtoHex (r, g, b)) + Z.of_nat n
  ∧ Script.try_num (resubmit n r g b now st) = Script.try_num st + Z.of_nat n.
Proof.
  intros Harmed Hvalid Hne. revert st Harmed.
  induction n as [|n IH]; intros st Harmed.
  - cbn [resubmit]. split_and!; try done; try lia.
    change (inject_Z (Z.of_nat 0)) with 0%Q. ring.
  - cbn [resubmit].
    destruct (submit_miss_armed st ac t0 r g b now) as [Harmed1 Hstep1]; try done.
    destruct (IH _ Harmed1) as (Ha & Hs & Hscore & Hm & Ht).
    split; [done|]. split; [congruence|].
    split; [|split].
    + rewrite Hscore, Hstep1. rewrite (submit_miss st ac t0) by done.
      cbn [fst Script.with_score_num Script.score_num].
      rewrite Nat2Z.inj_succ. unfold Z.succ. rewrite inject_Z_plus.
      change (inject_Z 1) with 1%Q. ring.
    + rewrite Hm, (misses_after_miss st ac t0) by done. lia.
    + rewrite Ht. rewrite (submit_miss st ac t0) by done.
      cbn [fst Script.with_score_num Script.with_miss_cnt Script.with_try_num
           Script.try_num]. lia.
Qed.

(** C2. On an armed round, a click on a valid colour other than the answer
    is a [Miss] that takes [squaredDistance(clicked, answer) / step^2] off
    the score; [n+1] identical wrong clicks take off [n+1] times that; the
    miss counter of the clicked hex is 1 after the first miss of that colour
    and one more after each repetition; each click counts as a try and the
    round stays armed. *)
Theorem miss_subtracts_penalty (st : Script.state) (ac : Script.rgb)
    (t0 r g b now : Z) (n : nat) :
  armed st ac t0 → valid_rgb (r, g, b) → (r, g, b) ≠ ac →
  let hex := Script.ConvertRGBtoHex (r, g, b) in
  let pen :=
    (inject_Z (squaredDistance (r, g, b) ac)
     / inject_Z (Script.color_step st ^ 2))%Q in
  let st1 := (Script.submit r g b now st).1 in
  let stn := resubmit (S n) r g b now st in
  (∃ dif, (Script.submit r g b now st).2 = Script.Miss hex (misses st hex + 1) dif
          ∧ (dif == pen)%Q
          ∧ Script.score_num st1 = (Script.score_num st - dif)%Q)
  ∧ (Script.miss_cnt st !! hex = None → Script.miss_cnt st1 !! hex = Some 1)
  ∧ (∀ k, Script.miss_cnt st !! hex = Some k →
          Script.miss_cnt st1 !! hex = Some (k + 1))
  ∧ (Script.score_num stn
     == Script.score_num st - inject_Z (Z.of_nat (S n)) * pen)%Q
  ∧ misses stn hex = misses st hex + Z.of_nat (S n)
  ∧ Script.try_num stn = Script.try_num st + Z.of_nat (S n)
  ∧ armed stn ac t0.
Proof.
  intros Harmed Hvalid Hne hex pen st1 stn.
  assert (Hpen : (penalty (r, g, b) ac (Script.color_step st) == pen)%Q).
  { unfold penalty, pen. by rewrite squaredDistance_sym. }
  pose proof (submit_miss st ac t0 r g b now Harmed Hvalid Hne) as Hsub.
  fold hex in Hsub.
  split.
  { eexists. unfold st1. rewrite Hsub. cbn [fst snd]. split_and!; done. }
  split.
  { intros Hnone. unfold st1. rewrite Hsub.
    cbn [fst Script.with_score_num Script.with_miss_cnt Script.miss_cnt].
    rewrite lookup_insert_eq. unfold misses. by rewrite Hnone. }
  split.
  { intros k Hk. unfold st1. rewrite Hsub.
    cbn [fst Script.with_score_num Script.with_miss_cnt Script.miss_cnt].
    rewrite lookup_insert_eq. unfold misses. by rewrite Hk. }
  destruct (resubmit_miss (S n) st ac t0 r g b now) as (Ha & _ & Hscore & Hm & Ht);
    try done.
  split; [|done].
  unfold stn. by rewrite Hscore, Hpen.
Qed.

(** ** The script: [make_problem] *)

Lemma swatches_in_range (num : Z) (l : list Script.rgb) :
  0 ≤ num ≤ Z.of_nat (length l) →
  Script.swatches num l = Script.Ret (take (Z.to_nat num) l).
Proof.
  intros Hnum. unfold Script.swatches.
  assert (Hm : mapM (λ i : nat, l !! i) (seq 0 (Z.to_nat num))
               = Some (take (Z.to_nat num) l)); [|by rewrite Hm].
  apply mapM_Some_2, Forall2_same_length_lookup_2.
  - rewrite length_seq, length_take_le; lia.
  - intros i x y [-> _]%lookup_seq [Hy _]%lookup_take_Some. done.
Qed.

Lemma swatches_beyond (num : Z) (l : list Script.rgb) :
  Z.of_nat (length l) < num → Script.swatches num l = Script.Raise.
Proof.
  intros Hnum. unfold Script.swatches.
  destruct (mapM _ _) as [shown|] eqn:Hm; [|done].
  apply mapM_Some_1 in Hm.
  destruct (Forall2_lookup_l _ _ _ (length l) (length l) Hm) as (y & _ & Hy).
  { apply lookup_seq. lia. }
  apply lookup_lt_Some in Hy. lia.
Qed.

Lemma Script_lattice_le_255 (dif : Z) :
  1 ≤ dif →
  Forall (λ c : Script.rgb, c.1.1 ≤ 255 ∧ c.1.2 ≤ 255 ∧ c.2 ≤ 255)
    (Script.lattice dif).
Proof.
  intros Hdif. unfold Script.lattice. rewrite lattice_of_offsets.
  apply Forall_fmap. eapply Forall_impl; [apply offsets_ok|].
  intros [[r g] b] (Hr & Hg & Hb). simpl in *. nia.
Qed.

(** What [make_problem] does for a count from 0 to 216, whatever the
    step. *)
Lemma make_problem_in_range (num dif now : Z) (st : Script.state) (rng : Rng) :
  0 ≤ num ≤ 216 →
  ∃ st' rng' ac,
    Script.make_problem num dif now st rng
    = (st', rng', Script.Ret (take (Z.to_nat num) (shuffle (Script.lattice dif) rng).1))
    ∧ Script.ac_color st' = Some ac
    ∧ (1 ≤ num → ac ∈ take (Z.to_nat num) (shuffle (Script.lattice dif) rng).1)
    ∧ ac ∈ Script.lattice dif
    ∧ Script.ac_color_hex st' = Script.ConvertRGBtoHex ac
    ∧ Script.enable_submit st' = true
    ∧ Script.color_step st' = dif
    ∧ Script.score_num st' = (if dif =? 1 then 1000%Q else 100%Q)
    ∧ Script.try_num st' = 0
    ∧ Script.start_time st' = Some now
    ∧ Script.miss_cnt st' = ∅
    ∧ Script.score_history5 st' = Script.score_history5 st.
Proof.
  intros Hnum. unfold Script.make_problem.
  pose proof (shuffle_Permutation (Script.lattice dif) rng) as Hperm.
  destruct (shuffle (Script.lattice dif) rng) as [shuffled rng1].
  cbn [fst] in *.
  assert (Hlen : length shuffled = 216%nat) by (by rewrite Hperm).
  rewrite swatches_in_range by lia.
  destruct (random rng1) as [u rng2].
  cbn [Script.with_ac_color Script.ac_color].
  assert (Hk : 0 ≤ floor_mul u num ∧ (1 ≤ num → floor_mul u num < num)
               ∧ floor_mul u num < 216).
  { destruct (decide (num = 0)) as [->|Hpos].
    - unfold floor_mul. rewrite Z.mul_0_r, Z.div_0_l by lia. lia.
    - pose proof (floor_mul_range u num). lia. }
  destruct Hk as (Hk0 & Hknum & Hk216).
  unfold index. rewrite (proj2 (Z.ltb_ge _ 0)) by lia.
  destruct (lookup_lt_is_Some_2 shuffled (Z.to_nat (floor_mul u num)))
    as [ac Hac]; [lia|].
  rewrite Hac. eexists _, _, ac. split; [reflexivity|].
  cbn. split_and!; try done.
  - intros Hpos. apply elem_of_take. exists (Z.to_nat (floor_mul u num)).
    split; [done|]. specialize (Hknum Hpos). lia.
  - rewrite <- Hperm. by eapply list_elem_of_lookup_2.
Qed.

Lemma make_problem_beyond (num dif now : Z) (st : Script.state) (rng : Rng) :
  216 < num →
  ∃ rng',
    Script.make_problem num dif now st rng
    = (Script.with_color_step dif st, rng', Script.Raise).
Proof.
  intros Hnum. unfold Script.make_problem.
  pose proof (shuffle_length (Script.lattice dif) rng) as Hlen.
  destruct (shuffle (Script.lattice dif) rng) as [shuffled rng1].
  cbn [fst] in Hlen. unfold Script.lattice in Hlen.
  rewrite lattice_of_length in Hlen.
  rewrite swatches_beyond by lia. eauto.
Qed.

(** [make_problem] with a count from 1 to 216 and a positive step arms a
    round on an answer that is one of the swatches shown. *)
Lemma make_problem_arms (num dif now : Z) (st : Script.state) (rng : Rng) :
  1 ≤ num ≤ 216 → 1 ≤ dif →
  ∃ ac, armed (Script.make_problem num dif now st rng).1.1 ac now
        ∧ Script.color_step (Script.make_problem num dif now st rng).1.1 = dif
        ∧ Script.miss_cnt (Script.make_problem num dif now st rng).1.1 = ∅.
Proof.
  intros Hnum Hdif.
  destruct (make_problem_in_range num dif now st rng) as
    (st' & rng' & ac & -> & Hac & _ & Hin & Hhex & Hen & Hstep & _ & _ & Ht & Hm & _);
    [lia|].
  exists ac. cbn [fst]. split; [|done].
  pose proof (Script_lattice_le_255 dif Hdif) as Hall.
  rewrite Forall_forall in Hall. destruct (Hall _ Hin) as (? & ? & ?).
  unfold armed. rewrite Hstep. split_and!; done.
Qed.

Lemma Game_new_fields (num dif : Z) (rng : Rng) :
  Z.of_nat (length (Classes.colors (Classes.Game_new num dif rng).1))
    = (if num <? 0 then Z.max (216 + num) 0 else Z.min num 216)
  ∧ Classes.colorStep (Classes.Game_new num dif rng).1 = dif
  ∧ Classes.tryCount (Classes.Game_new num dif rng).1 = 0
  ∧ Classes.startTime (Classes.Game_new num dif rng).1 = None
  ∧ Classes.score (Classes.Game_new num dif rng).1
    = (if dif =? 1 then 1000%Q else 100%Q).
Proof.
  unfold Classes.Game_new.
  pose proof (shuffle_length (Classes.lattice dif) rng) as Hlen.
  destruct (shuffle (Classes.lattice dif) rng) as [shuffled rng1].
  destruct (random rng1) as [u rng2]. cbn [fst] in *.
  unfold Classes.lattice in Hlen. rewrite lattice_of_length in Hlen.
  cbn. split_and!; try done.
  unfold slice0. destruct (Z.ltb_spec num 0); rewrite length_take; lia.
Qed.

(** C9, amended.  Neither variant checks [count] or [step].  In the script,
    [make_problem(num, dif)] with [0 <= num <= 216] and any integer [dif],
    zero and negative included, returns normally with [num] swatches, the
    round armed, the step set to [dif] and the score initialised; with
    [num > 216] it raises the [TypeError] of reading [list[216]], after
    [color_step] has been assigned.  With the classes, [new Game(num, dif)]
    returns a game for all integers: its palette has [min(num, 216)] colours
    for [num >= 0] and [max(216 + num, 0)] for [num < 0]. *)
Theorem startRound_validates_nothing :
  (∀ (num dif now : Z) (st : Script.state) (rng : Rng),
     0 ≤ num ≤ 216 →
     ∃ st' rng' shown,
       Script.make_problem num dif now st rng = (st', rng', Script.Ret shown)
       ∧ Z.of_nat (length shown) = num
       ∧ Script.enable_submit st' = true
       ∧ Script.color_step st' = dif
       ∧ Script.try_num st' = 0
       ∧ Script.score_num st' = (if dif =? 1 then 1000%Q else 100%Q))
  ∧ (∀ (num dif now : Z) (st : Script.state) (rng : Rng),
       216 < num →
       ∃ rng',
         Script.make_problem num dif now st rng
         = (Script.with_color_step dif st, rng', Script.Raise))
  ∧ (∀ (num dif : Z) (rng : Rng),
       Z.of_nat (length (Classes.colors (Classes.Game_new num dif rng).1))
         = (if num <? 0 then Z.max (216 + num) 0 else Z.min num 216)
       ∧ Classes.colorStep (Classes.Game_new num dif rng).1 = dif
       ∧ Classes.tryCount (Classes.Game_new num dif rng).1 = 0
       ∧ Classes.startTime (Classes.Game_new num dif rng).1 = None
       ∧ Classes.score (Classes.Game_new num dif rng).1
         = (if dif =? 1 then 1000%Q else 100%Q)).
Proof.
  split_and!.
  - intros num dif now st rng Hnum.
    destruct (make_problem_in_range num dif now st rng Hnum) as
      (st' & rng' & ac & Heq & _ & _ & _ & _ & Hen & Hstep & Hscore & Htry & _).
    eexists st', rng', _. split; [exact Heq|].
    pose proof (shuffle_length (Script.lattice dif) rng) as Hlen.
    unfold Script.lattice in Hlen at 2. rewrite lattice_of_length in Hlen.
    rewrite length_take_le by lia. split_and!; try assumption. lia.
  - intros. by apply make_problem_beyond.
  - apply Game_new_fields.
Qed.

Lemma startRound_validates_nothing_witness :
  ∃ st' rng' shown,
    Script.make_problem 0 (-2) 7 Script.initial (rng_const half_sample)
    = (st', rng', Script.Ret shown)
    ∧ Z.of_nat (length shown) = 0
    ∧ Script.enable_submit st' = true
    ∧ Script.color_step st' = -2
    ∧ Script.try_num st' = 0
    ∧ Script.score_num st' = (if -2 =? 1 then 1000%Q else 100%Q).
Proof. apply (proj1 startRound_validates_nothing). lia. Defined.

(** The claim as written fails: a step of 0 and a count of 0 are taken
    without any error.  [make_problem(3, 0)] shows three times white and
    arms the round; [new Game(0, 1)] is a game with no colour and no
    answer; [new Game(300, -1)] is a game of 216 colours. *)
Lemma startRound_takes_bad_arguments :
  (∃ st' rng',
     Script.make_problem 3 0 0 Script.initial (rng_const zero_sample)
     = (st', rng',
        Script.Ret [(255, 255, 255); (255, 255, 255); (255, 255, 255)])
     ∧ Script.enable_submit st' = true
     ∧ Script.color_step st' = 0)
  ∧ (∃ st' rng',
       Script.make_problem 0 1 0 Script.initial (rng_const zero_sample)
       = (st', rng', Script.Ret [])
       ∧ Script.enable_submit st' = true)
  ∧ Classes.colors (Classes.Game_new 0 1 (rng_const zero_sample)).1 = []
  ∧ Classes.answer (Classes.Game_new 0 1 (rng_const zero_sample)).1 = None
  ∧ length (Classes.colors (Classes.Game_new 300 (-1) (rng_const zero_sample)).1)
    = 216%nat.
Proof.
  split_and!; [eexists _, _; split_and!; [vm_compute; reflexivity|..]..| | |];
    reflexivity.
Qed.

(** ** Submissions while no round is armed *)

Lemma submit_Hit_disarms (r g b now : Z) (st st' : Script.state)
    (time : option Z) (c c2 : string) (ave : option Script.hist) :
  Script.submit r g b now st = (st', Script.Hit time c c2 ave) →
  Script.enable_submit st' = false.
Proof.
  unfold Script.submit.
  destruct (Script.enable_submit st); cbn [negb]; [|discriminate].
  destruct (String.eqb _ _).
  - destruct (Script.update_timer _ _); [|discriminate].
    destruct (Script.comments _ _ _) as [k k2].
    destruct (Script.color_step _ =? 1); intros [= <- _ _ _ _]; reflexivity.
  - destruct (Script.ac_color _) as [[[ar ag] ab]|]; discriminate.
Qed.

(** C3. While no round is armed, that is before the first [make_problem]
    and after a hit, [submit] returns at once and leaves the whole state,
    try count and score included, as it was; [make_problem] arms a round.
    With the classes, [submit] is ignored while [game] is [null], which it
    is at first and again after a successful try; [onTry] on a game that was
    not started returns [null] and leaves the game as it was; [start] stores
    a started game. *)
Theorem submit_when_not_armed :
  (∀ (r g b now : Z) (st : Script.state),
     Script.enable_submit st = false →
     Script.submit r g b now st = (st, Script.Ignored))
  ∧ Script.enable_submit Script.initial = false
  ∧ (∀ (r g b now r' g' b' now' : Z) (st st' : Script.state) time c c2 ave,
       Script.submit r g b now st = (st', Script.Hit time c c2 ave) →
       Script.submit r' g' b' now' st' = (st', Script.Ignored))
  ∧ (∀ (num dif now : Z) (st : Script.state) (rng : Rng),
       0 ≤ num ≤ 216 →
       Script.enable_submit (Script.make_problem num dif now st rng).1.1 = true)
  ∧ (∀ (hex : string) (now : Z) (pg : Classes.page),
       Classes.game pg = None → Classes.submit hex now pg = (pg, None))
  ∧ (∀ rng, Classes.game (Classes.initial rng) = None)
  ∧ (∀ (hex : string) (now : Z) (pg pg' : Classes.page) call,
       Classes.submit hex now pg = (pg', Some (Classes.Done true call)) →
       Classes.game pg' = None)
  ∧ (∀ (hex : string) (now : Z) (g : Classes.Game),
       Classes.startTime g = None →
       Classes.onTry hex now g = (g, Classes.Null))
  ∧ (∀ (num dif now : Z) (pg : Classes.page),
       ∃ g, Classes.game (Classes.start num dif now pg) = Some g
            ∧ Classes.startTime g = Some now
            ∧ Classes.tryCount g = 0).
Proof.
  split_and!.
  - intros r g b now st Hoff. unfold Script.submit. by rewrite Hoff.
  - reflexivity.
  - intros r g b now r' g' b' now' st st' time c c2 ave Hhit.
    apply submit_Hit_disarms in Hhit.
    unfold Script.submit. by rewrite Hhit.
  - intros num dif now st rng Hnum.
    destruct (make_problem_in_range num dif now st rng Hnum) as
      (st' & rng' & ac & -> & _ & _ & _ & _ & Hen & _). done.
  - intros hex now pg Hnone. unfold Classes.submit. by rewrite Hnone.
  - reflexivity.
  - intros hex now pg pg' call. unfold Classes.submit.
    destruct (Classes.game pg) as [g|]; [|discriminate].
    destruct (Classes.onTry hex now g) as [g' [| [] call' |]]; intros Heq.
    + apply (f_equal snd) in Heq. cbn [snd] in Heq. discriminate Heq.
    + apply (f_equal fst) in Heq. cbn [fst] in Heq. by rewrite <- Heq.
    + apply (f_equal snd) in Heq. cbn [snd] in Heq. discriminate Heq.
    + apply (f_equal snd) in Heq. cbn [snd] in Heq. discriminate Heq.
  - intros hex now g Hnull. unfold Classes.onTry. by rewrite Hnull.
  - intros num dif now pg. unfold Classes.start.
    pose proof (Game_new_fields num dif (Classes.rng pg)) as (_ & _ & Htry & _).
    destruct (Classes.Game_new num dif (Classes.rng pg)) as [g rng'].
    eexists. split; [reflexivity|]. done.
Qed.

Lemma submit_when_not_armed_witness :
  Script.submit 255 255 254 9 Script.initial = (Script.initial, Script.Ignored).
Proof. apply (proj1 submit_when_not_armed). reflexivity. Defined.

Lemma round_200_1_armed : armed round_200_1 (255, 255, 254) 0.
Proof.
  unfold armed. split_and!; vm_compute; try reflexivity; intros [=].
Qed.

Lemma miss_subtracts_penalty_witness :
  let hex := Script.ConvertRGBtoHex (252, 252, 251) in
  let pen :=
    (inject_Z (squaredDistance (252, 252, 251)%Z (255, 255, 254)%Z)
     / inject_Z (Script.color_step round_200_1 ^ 2))%Q in
  let st1 := (Script.submit 252 252 251 0 round_200_1).1 in
  let stn := resubmit 2 252 252 251 0 round_200_1 in
  (∃ dif, (Script.submit 252 252 251 0 round_200_1).2
          = Script.Miss hex (misses round_200_1 hex + 1) dif
          ∧ (dif == pen)%Q
          ∧ Script.score_num st1 = (Script.score_num round_200_1 - dif)%Q)
  ∧ (Script.miss_cnt round_200_1 !! hex = None →
     Script.miss_cnt st1 !! hex = Some 1)
  ∧ (∀ k, Script.miss_cnt round_200_1 !! hex = Some k →
          Script.miss_cnt st1 !! hex = Some (k + 1))
  ∧ (Script.score_num stn
     == Script.score_num round_200_1 - inject_Z (Z.of_nat 2) * pen)%Q
  ∧ misses stn hex = misses round_200_1 hex + Z.of_nat 2
  ∧ Script.try_num stn = Script.try_num round_200_1 + Z.of_nat 2
  ∧ armed stn (255, 255, 254) 0.
Proof.
  apply (miss_subtracts_penalty round_200_1 (255, 255, 254) 0 252 252 251 0 1).
  - exact round_200_1_armed.
  - unfold valid_rgb. simpl. lia.
  - intros [=].
Defined.

(** The scenario of the specification, run: a wrong click at squared
    distance 27 on [make_problem(200, 1)] leaves 973 and a count of 1, the
    same click again leaves 946 and a count of 2. *)
Example two_misses_at_distance_27 :
  squaredDistance (252, 252, 251) (255, 255, 254) = 27
  ∧ Script.score_num (resubmit 1 252 252 251 0 round_200_1) = 973%Q
  ∧ Script.miss_cnt (resubmit 1 252 252 251 0 round_200_1) !! "fcfcfb"%string
    = Some 1
  ∧ Script.score_num (resubmit 2 252 252 251 0 round_200_1) = 946%Q
  ∧ Script.miss_cnt (resubmit 2 252 252 251 0 round_200_1) !! "fcfcfb"%string
    = Some 2.
Proof. split_and!; vm_compute; reflexivity. Qed.

(** The same subtraction in [Game.onFailure] (part_000, which keeps no
    miss counter). *)
Lemma onTry_miss (g : Classes.Game) (a color : Color.t) (hex : string)
    (t0 now : Z) :
  Classes.startTime g = Some t0 → Classes.answer g = Some a →
  Color.fromHex hex = Some color → color ≠ a →
  ∃ g' call,
    Classes.onTry hex now g = (g', Classes.Done false call)
    ∧ Classes.tryCount g' = Classes.tryCount g + 1
    ∧ Classes.score g'
      = (Classes.score g
         - inject_Z (Color.diff color (Some a))
           / inject_Z (Classes.colorStep g ^ 2))%Q
    ∧ Classes.startTime g' = Some t0.
Proof.
  intros Ht Ha Hhex Hne. unfold Classes.onTry.
  rewrite Ht, Hhex. cbn [Classes.answer]. rewrite Ha.
  assert (Heq : Color.eq a (Some color) = false).
  { unfold Color.eq. destruct a as [r1 g1 b1], color as [r2 g2 b2]. simpl.
    repeat case_bool_decide; try reflexivity. congruence. }
  rewrite Heq. unfold Classes.onFailure. cbn.
  eexists _, _. split; [reflexivity|]. cbn. split_and!; reflexivity.
Qed.

(** ** The comment of a hit *)

Lemma comments_cases (step tries elapsed : Z) :
  (step ≠ 1 →
   Script.comments step tries (Some elapsed) = Script.comment_tutorial)
  ∧ (step = 1 → tries = 1 →
     Script.comments step tries (Some elapsed) = Script.comment_first_try)
  ∧ (step = 1 → tries ≠ 1 → elapsed ≤ 10000 →
     Script.comments step tries (Some elapsed) = Script.comment_fast)
  ∧ (step = 1 → tries ≠ 1 → 10000 < elapsed → tries ≤ 10 →
     Script.comments step tries (Some elapsed) = Script.comment_within_10)
  ∧ (step = 1 → tries ≠ 1 → 10000 < elapsed → 10 < tries →
     Script.comments step tries (Some elapsed) = Script.comment_none).
Proof.
  unfold Script.comments.
  destruct (Z.eqb_spec step 1), (Z.eqb_spec tries 1),
    (Z.leb_spec elapsed 10000), (Z.leb_spec tries 10);
    cbn [negb]; split_and!; intros; try reflexivity; lia.
Qed.

Lemma Color_eq_refl (a : Color.t) : Color.eq a (Some a) = true.
Proof. unfold Color.eq. by rewrite !bool_decide_eq_true_2. Qed.

(** C5. On a hit the comment is chosen by the first rule that applies, in
    this order: step other than 1, the tutorial comment; else first try, the
    first-try comment (whatever the elapsed time); else at most 10000 ms,
    the fast comment; else, in the script only, at most 10 tries, the
    within-10 comment; else the empty comment.  The try that hits is
    counted. *)
Theorem hit_comment_order :
  (∀ (st : Script.state) (ac : Script.rgb) (t0 now : Z),
     armed st ac t0 →
     ∃ st' cs ave,
       Script.submit ac.1.1 ac.1.2 ac.2 now st
       = (st', Script.Hit (Some (now - t0)) cs.1 cs.2 ave)
       ∧ Script.try_num st' = Script.try_num st + 1
       ∧ (Script.color_step st ≠ 1 → cs = Script.comment_tutorial)
       ∧ (Script.color_step st = 1 → Script.try_num st' = 1 →
          cs = Script.comment_first_try)
       ∧ (Script.color_step st = 1 → Script.try_num st' ≠ 1 →
          now - t0 ≤ 10000 → cs = Script.comment_fast)
       ∧ (Script.color_step st = 1 → Script.try_num st' ≠ 1 →
          10000 < now - t0 → Script.try_num st' ≤ 10 →
          cs = Script.comment_within_10)
       ∧ (Script.color_step st = 1 → Script.try_num st' ≠ 1 →
          10000 < now - t0 → 10 < Script.try_num st' →
          cs = Script.comment_none))
  ∧ (∀ (g : Classes.Game) (a : Color.t) (hex : string) (t0 now : Z),
       Classes.startTime g = Some t0 → Classes.answer g = Some a →
       Color.fromHex hex = Some a →
       ∃ g' cs,
         Classes.onTry hex now g
         = (g', Classes.Done true
                  (Classes.showSuccess (Classes.score g) (Classes.tryCount g')
                     (now - t0) cs.1 cs.2))
         ∧ Classes.tryCount g' = Classes.tryCount g + 1
         ∧ (Classes.colorStep g ≠ 1 → cs = Classes.comment_tutorial)
         ∧ (Classes.colorStep g = 1 → Classes.tryCount g' = 1 →
            cs = Classes.comment_first_try)
         ∧ (Classes.colorStep g = 1 → Classes.tryCount g' ≠ 1 →
            now - t0 ≤ 10000 → cs = Classes.comment_fast)
         ∧ (Classes.colorStep g = 1 → Classes.tryCount g' ≠ 1 →
            10000 < now - t0 → cs = Classes.comment_none))
  ∧ NoDup [Script.comment_tutorial; Script.comment_first_try;
           Script.comment_fast; Script.comment_within_10; Script.comment_none]
  ∧ NoDup [Classes.comment_tutorial; Classes.comment_first_try;
           Classes.comment_fast; Classes.comment_none].
Proof.
  split_and!.
  - intros st ac t0 now Harmed.
    pose proof (submit_hit st ac t0 now Harmed) as Hsub. cbv zeta in Hsub.
    pose proof (comments_cases (Script.color_step st) (Script.try_num st + 1)
                  (now - t0)) as (R1 & R2 & R3 & R4 & R5).
    destruct (Script.color_step st =? 1);
      eexists _, (Script.comments _ _ _), _;
      (split; [exact Hsub|]); cbn; split_and!; auto.
  - intros g a hex t0 now Ht Ha Hhex. unfold Classes.onTry.
    rewrite Ht, Hhex. cbn [Classes.answer]. rewrite Ha, Color_eq_refl.
    unfold Classes.onSuccess. cbn [Classes.colorStep Classes.tryCount Classes.score].
    match goal with
    | |- context [let '(_, _) := ?e in _] => remember e as cs eqn:Hcs
    end.
    eexists _, cs.
    split; [destruct cs; apply (f_equal2 pair); reflexivity|]. subst cs.
    cbn [Classes.tryCount].
    destruct (Z.eqb_spec (Classes.colorStep g) 1),
      (Z.eqb_spec (Classes.tryCount g + 1) 1), (Z.leb_spec (now - t0) 10000);
      cbn [negb]; split_and!; intros; try reflexivity; lia.
  - apply (bool_decide_unpack _). vm_compute. exact I.
  - apply (bool_decide_unpack _). vm_compute. exact I.
Qed.

(** The scenario of the specification: the first try of a round at step 1
    hits after 20 seconds, and the comment is the first-try one. *)
Lemma hit_comment_order_witness :
  ∃ st' cs ave,
    Script.submit 255 255 254 20000 round_200_1
    = (st', Script.Hit (Some (20000 - 0)) cs.1 cs.2 ave)
    ∧ Script.try_num st' = Script.try_num round_200_1 + 1
    ∧ cs = Script.comment_first_try.
Proof.
  destruct (proj1 hit_comment_order round_200_1 (255, 255, 254) 0 20000
              round_200_1_armed) as (st' & cs & ave & Hsub & Htry & _ & R2 & _).
  exists st', cs, ave. split; [exact Hsub|]. split; [exact Htry|].
  apply R2; [reflexivity|]. rewrite Htry. reflexivity.
Defined.

(** ** The rolling history of final scores *)

Lemma ave_loop_placeholder (history : list Script.hist) (ave : Q) :
  Script.placeholder ∈ history →
  Script.ave_loop ave history = Script.placeholder.
Proof.
  revert ave. induction history as [|[|v] rest IH]; intros ave Hin.
  - by apply not_elem_of_nil in Hin.
  - reflexivity.
  - cbn [Script.ave_loop]. apply IH.
    apply elem_of_cons in Hin as [Heq|Hin]; [discriminate|done].
Qed.

Lemma average_placeholder (history : list Script.hist) :
  Script.placeholder ∈ history →
  Script.average history = Script.placeholder.
Proof.
  intros Hin. unfold Script.average. by rewrite ave_loop_placeholder.
Qed.

Lemma average_five (v1 v2 v3 v4 v5 : Q) :
  ∃ q,
    Script.average
      [Script.final v1; Script.final v2; Script.final v3; Script.final v4;
       Script.final v5] = Script.final q
    ∧ (q == (v1 + v2 + v3 + v4 + v5) / 5)%Q.
Proof.
  eexists. split; [reflexivity|]. unfold Qdiv. ring.
Qed.

Lemma round_with_history_armed (history : list Script.hist) :
  armed (round_with_history history) (255, 255, 254) 0.
Proof. exact round_200_1_armed. Qed.

(** C6. A hit at step 1 drops the oldest of the five entries of the
    history and appends the final score, which the hit leaves as it was.
    The average it reports is a fifth of the sum of the five entries when
    all five are scores, and is the placeholder (no average) when a
    placeholder is left among them. *)
Theorem hit_pushes_history (st : Script.state) (ac : Script.rgb) (t0 now : Z)
    (h0 h1 h2 h3 h4 : Script.hist) :
  armed st ac t0 →
  Script.color_step st = 1 →
  Script.score_history5 st = [h0; h1; h2; h3; h4] →
  ∃ st' c c2 ave,
    Script.submit ac.1.1 ac.1.2 ac.2 now st
    = (st', Script.Hit (Some (now - t0)) c c2 (Some ave))
    ∧ Script.score_history5 st'
      = [h1; h2; h3; h4; Script.final (Script.score_num st)]
    ∧ Script.score_num st' = Script.score_num st
    ∧ (∀ v1 v2 v3 v4 : Q,
         h1 = Script.final v1 → h2 = Script.final v2 →
         h3 = Script.final v3 → h4 = Script.final v4 →
         ∃ q, ave = Script.final q
              ∧ (q == (v1 + v2 + v3 + v4 + Script.score_num st) / 5)%Q)
    ∧ (Script.placeholder ∈ Script.score_history5 st' →
       ave = Script.placeholder).
Proof.
  intros Harmed Hstep Hhist.
  pose proof (submit_hit st ac t0 now Harmed) as Hsub. cbv zeta in Hsub.
  rewrite Hstep, Hhist in Hsub. cbn [Z.eqb Pos.eqb tail app] in Hsub.
  eexists _, _, _, _. split; [exact Hsub|].
  cbn [Script.with_score_history5 Script.with_enable_submit
       Script.with_try_num Script.score_history5 Script.score_num].
  split; [reflexivity|]. split; [reflexivity|]. split.
  - intros v1 v2 v3 v4 -> -> -> ->. apply average_five.
  - apply average_placeholder.
Qed.

(** The scenario of the specification: after rounds that ended on 900, 950,
    1000, 850 and 1000 the average is 940, and the next hit drops the 900. *)
Lemma hit_pushes_history_witness :
  (∃ st' c c2 q,
     Script.submit 255 255 254 5000
       (round_with_history
          [Script.placeholder; Script.final 900; Script.final 950;
           Script.final 1000; Script.final 850])
     = (st', Script.Hit (Some (5000 - 0)) c c2 (Some (Script.final q)))
     ∧ Script.score_history5 st'
       = [Script.final 900; Script.final 950; Script.final 1000;
          Script.final 850; Script.final 1000]
     ∧ (q == 940)%Q)
  ∧ (∃ st' c c2 ave,
       Script.submit 255 255 254 5000
         (round_with_history
            [Script.final 900; Script.final 950; Script.final 1000;
             Script.final 850; Script.final 1000])
       = (st', Script.Hit (Some (5000 - 0)) c c2 (Some ave))
       ∧ Script.score_history5 st'
         = [Script.final 950; Script.final 1000; Script.final 850;
            Script.final 1000; Script.final 1000]).
Proof.
  split.
  - destruct (hit_pushes_history
                (round_with_history
                   [Script.placeholder; Script.final 900; Script.final 950;
                    Script.final 1000; Script.final 850])
                (255, 255, 254) 0 5000 _ _ _ _ _
                (round_with_history_armed _) eq_refl eq_refl)
      as (st' & c & c2 & ave & Hsub & Hhist & _ & Have & _).
    destruct (Have 900%Q 950%Q 1000%Q 850%Q eq_refl eq_refl eq_refl eq_refl)
      as (q & -> & Hq).
    exists st', c, c2, q. split; [exact Hsub|]. split; [exact Hhist|].
    rewrite Hq. reflexivity.
  - destruct (hit_pushes_history
                (round_with_history
                   [Script.final 900; Script.final 950; Script.final 1000;
                    Script.final 850; Script.final 1000])
                (255, 255, 254) 0 5000 _ _ _ _ _
                (round_with_history_armed _) eq_refl eq_refl)
      as (st' & c & c2 & ave & Hsub & Hhist & _).
    exists st', c, c2, ave. split; [exact Hsub|exact Hhist].
Defined.

(** At any other step a hit leaves the history as it was and reports no
    average. *)
Lemma hit_keeps_history (st : Script.state) (ac : Script.rgb) (t0 now : Z) :
  armed st ac t0 → Script.color_step st ≠ 1 →
  ∃ st' c c2,
    Script.submit ac.1.1 ac.1.2 ac.2 now st
    = (st', Script.Hit (Some (now - t0)) c c2 None)
    ∧ Script.score_history5 st' = Script.score_history5 st
    ∧ Script.score_num st' = Script.score_num st.
Proof.
  intros Harmed Hstep.
  pose proof (submit_hit st ac t0 now Harmed) as Hsub. cbv zeta in Hsub.
  rewrite (proj2 (Z.eqb_neq _ _) Hstep) in Hsub.
  eexists _, _, _. split; [exact Hsub|]. split; reflexivity.
Qed.

Lemma hit_keeps_history_witness :
  ∃ st' c c2,
    Script.submit 255 255 252 9 round_3_3 = (st', Script.Hit (Some 9) c c2 None)
    ∧ Script.score_history5 st' = Script.score_history5 round_3_3
    ∧ Script.score_num st' = Script.score_num round_3_3.
Proof.
  apply (hit_keeps_history round_3_3 (255, 255, 252) 0 9).
  - unfold armed. split_and!; vm_compute; try reflexivity; intros [=].
  - vm_compute. intros [=].
Defined.

(** ** part_001: the palette that is not near white *)

(** [withDiff] adds the offsets and [make_problem] passes them without the
    step: the second colour pushed is white plus [(0, 0, 1)], which the
    constructor wraps to blue 0. *)
Lemma StateObj_lattice_second :
  ∀ white, Color.fromHex "#FFFFFF" = Some white →
    StateObj.lattice white !! 1%nat = Some (Color.mk 255 255 0).
Proof. intros white [= <-]. reflexivity. Qed.

(** ** The palette of the script *)

Lemma Script_lattice_NoDup (dif : Z) : 1 ≤ dif → NoDup (Script.lattice dif).
Proof.
  intros Hdif. unfold Script.lattice. rewrite lattice_of_offsets.
  apply NoDup_fmap_2_strong; [|apply offsets_NoDup].
  intros [[r1 g1] b1] [[r2 g2] b2] _ _. simpl. intros [= Hr Hg Hb].
  f_equal; [f_equal|]; nia.
Qed.

Lemma Script_lattice_white_minus (dif : Z) :
  Forall (rgb_white_minus dif) (Script.lattice dif).
Proof.
  unfold Script.lattice. rewrite lattice_of_offsets.
  apply Forall_fmap. eapply Forall_impl; [apply offsets_ok|].
  intros [[r g] b] (Hr & Hg & Hb). simpl in *.
  exists r, g, b. split_and!; try lia. reflexivity.
Qed.

(** The script keeps the arrays as computed, without any modulo: there the
    palette of C1 is as the claim says for every positive step. *)
Lemma make_problem_palette (num dif now : Z) (st : Script.state) (rng : Rng) :
  1 ≤ num ≤ 216 → 1 ≤ dif →
  ∃ st' rng' shown ac,
    Script.make_problem num dif now st rng = (st', rng', Script.Ret shown)
    ∧ Z.of_nat (length shown) = num
    ∧ Forall (rgb_white_minus dif) shown
    ∧ NoDup shown
    ∧ Script.ac_color st' = Some ac
    ∧ ac ∈ shown.
Proof.
  intros Hnum Hdif.
  destruct (make_problem_in_range num dif now st rng) as
    (st' & rng' & ac & Heq & Hac & Hin & _); [lia|].
  eexists st', rng', _, ac. split; [exact Heq|].
  pose proof (shuffle_Permutation (Script.lattice dif) rng) as Hperm.
  pose proof (shuffle_length (Script.lattice dif) rng) as Hlen.
  unfold Script.lattice in Hlen at 2. rewrite lattice_of_length in Hlen.
  split_and!.
  - rewrite length_take_le; lia.
  - apply Forall_take. rewrite Hperm. apply Script_lattice_white_minus.
  - apply (sublist_NoDup _ (shuffle (Script.lattice dif) rng).1);
      [|apply sublist_take].
    rewrite Hperm. by apply Script_lattice_NoDup.
  - exact Hac.
  - apply Hin. lia.
Qed.

Lemma make_problem_palette_witness :
  ∃ st' rng' shown ac,
    Script.make_problem 200 1 0 Script.initial (rng_const zero_sample)
    = (st', rng', Script.Ret shown)
    ∧ Z.of_nat (length shown) = 200
    ∧ Forall (rgb_white_minus 1) shown
    ∧ NoDup shown
    ∧ Script.ac_color st' = Some ac
    ∧ ac ∈ shown.
Proof. apply make_problem_palette; lia. Defined.

(** * Further properties of the code *)

(** ** [shuffle]: what it consumes and what it can produce *)

Section ShuffleReach.
Context {A : Type}.
#[local] Open Scope nat_scope.
Implicit Types (l p : list A) (i j : nat).

Lemma shuffle_loop_rng i l rng :
  (shuffle_loop i l rng).2 = mkRng (draws rng) (pos rng + i).
Proof.
  revert l rng. induction i as [|i IH]; intros l rng.
  - destruct rng as [f p0]. simpl. by rewrite Nat.add_0_r.
  - cbn [shuffle_loop]. unfold random. rewrite IH. simpl.
    f_equal. lia.
Qed.

(** [shuffle] asks [Math.random()] once per element but the first, in
    order; an array with at most one element comes back as it is, with no
    value consumed. *)
Theorem shuffle_draws l rng :
  draws (shuffle l rng).2 = draws rng
  ∧ pos (shuffle l rng).2 = pos rng + (length l - 1)
  ∧ (length l ≤ 1 → shuffle l rng = (l, rng)).
Proof.
  unfold shuffle. rewrite shuffle_loop_rng. split; [done|]. split; [done|].
  intros Hlen. replace (length l - 1) with 0 by lia. reflexivity.
Qed.

Lemma swap_app_l i j l1 l2 :
  i < length l1 → j < length l1 → swap i j (l1 ++ l2) = swap i j l1 ++ l2.
Proof.
  intros Hi Hj. unfold swap.
  rewrite !lookup_app_l by done.
  destruct (l1 !! j) as [aj|]; [|done].
  destruct (l1 !! i) as [ai|]; [|done].
  rewrite insert_app_l by done.
  by rewrite insert_app_l by (by rewrite length_insert).
Qed.

(** The loop entered at [i] leaves the elements beyond index [i] where
    they are. *)
Lemma shuffle_loop_app i l1 l2 rng :
  i < length l1 →
  shuffle_loop i (l1 ++ l2) rng
  = ((shuffle_loop i l1 rng).1 ++ l2, (shuffle_loop i l1 rng).2).
Proof.
  revert l1 rng. induction i as [|i IH]; intros l1 rng Hi; [done|].
  cbn [shuffle_loop]. destruct (random rng) as [u rng'].
  pose proof (shuffle_draw_in_range u (S i)) as Hj.
  rewrite swap_app_l by lia.
  apply IH. rewrite swap_length. lia.
Qed.

Lemma shuffle_loop_ext i l (f g : nat → sample) (p0 q0 : nat) :
  (∀ k, k < i → f (p0 + k) = g (q0 + k)) →
  (shuffle_loop i l (mkRng f p0)).1 = (shuffle_loop i l (mkRng g q0)).1.
Proof.
  revert l p0 q0. induction i as [|i IH]; intros l p0 q0 Hfg; [done|].
  cbn [shuffle_loop random draws pos].
  rewrite <- (Nat.add_0_r p0) at 1. rewrite <- (Nat.add_0_r q0) at 1.
  rewrite (Hfg 0) by lia.
  apply IH. intros k Hk.
  replace (S p0 + k) with (p0 + S k) by lia.
  replace (S q0 + k) with (q0 + S k) by lia.
  apply Hfg. lia.
Qed.

Lemma sample_for i j :
  j ≤ i → ∃ u : sample, Z.to_nat (floor_mul u (Z.of_nat i + 1)) = j.
Proof.
  intros Hj.
  assert (Hlt : (N.of_nat j <? N.pos (Pos.of_succ_nat i))%N = true).
  { apply N.ltb_lt. lia. }
  exists (Sample (N.of_nat j) (Pos.of_succ_nat i) Hlt).
  unfold floor_mul. cbn [s_num s_den].
  rewrite Zpos_P_of_succ_nat, <- Z.add_1_r.
  rewrite Z.div_mul by lia. lia.
Qed.

Lemma shuffle_loop_reaches i l p :
  length l = S i → p ≡ₚ l →
  ∃ f : nat → sample, (shuffle_loop i l (mkRng f 0)).1 = p.
Proof.
  revert l p. induction i as [|i IH]; intros l p Hlen Hperm.
  - exists (λ _, zero_sample). simpl.
    destruct l as [|x [|??]]; try discriminate.
    by apply Permutation_singleton_r in Hperm.
  - assert (Hp : p ≠ []).
    { intros ->. apply Permutation_nil_l in Hperm. by subst. }
    destruct (exists_last Hp) as (p' & y & ->).
    assert (Hy : y ∈ l).
    { rewrite <- Hperm. apply elem_of_app. right. apply list_elem_of_singleton.
      done. }
    apply list_elem_of_lookup in Hy as [j Hj].
    pose proof (lookup_lt_Some _ _ _ Hj) as Hjlt.
    destruct (sample_for (S i) j) as [u Hu]; [lia|].
    set (l1 := swap (S i) j l).
    assert (Hl1len : length l1 = S (S i)) by (unfold l1; by rewrite swap_length).
    assert (Hlast : l1 !! S i = Some y).
    { unfold l1. rewrite swap_lookup by lia. by rewrite decide_True. }
    assert (Hsplit : l1 = take (S i) l1 ++ [y]).
    { rewrite <- (take_S_r _ _ _ Hlast). symmetry. apply take_ge. lia. }
    assert (Hperm' : p' ≡ₚ take (S i) l1).
    { apply (Permutation_app_inv_r [y]).
      rewrite <- Hsplit, Hperm. unfold l1. symmetry. apply swap_Permutation. }
    destruct (IH (take (S i) l1) p') as [f Hf]; [|done|].
    { rewrite length_take_le; lia. }
    exists (λ k, match k with O => u | S k' => f k' end).
    cbn [shuffle_loop random draws pos]. rewrite Hu. fold l1.
    rewrite Hsplit, shuffle_loop_app by (rewrite length_take_le; lia).
    cbn [fst]. f_equal. rewrite <- Hf.
    apply shuffle_loop_ext. intros k _. reflexivity.
Qed.

(** Every ordering of the array is the result of [shuffle] for some
    sequence of values of [Math.random()]. *)
Theorem shuffle_reaches_every_order l p :
  p ≡ₚ l → ∃ rng, (shuffle l rng).1 = p.
Proof.
  intros Hperm. unfold shuffle.
  destruct l as [|x l].
  - apply Permutation_nil_r in Hperm as ->. by exists (rng_const zero_sample).
  - destruct (shuffle_loop_reaches (length l) (x :: l) p) as [f Hf];
      [done|done|].
    exists (mkRng f 0). simpl. rewrite Nat.sub_0_r. exact Hf.
Qed.
End ShuffleReach.

Lemma shuffle_reaches_every_order_witness :
  ∃ rng, (shuffle [1; 2; 3] rng).1 = [2; 1; 3].
Proof. apply shuffle_reaches_every_order. apply perm_swap. Defined.

(** ** [Color]: equality, distance, text *)

(** [eq] is true only on equal channels. *)
Lemma Color_eq_true (c o : Color.t) : Color.eq c (Some o) = true → c = o.
Proof.
  destruct c as [r1 g1 b1], o as [r2 g2 b2].
  unfold Color.eq. cbn [Color.r Color.g Color.b].
  rewrite !andb_true_iff, !bool_decide_eq_true.
  intros [[-> ->] ->]. reflexivity.
Qed.

(** [eq] decides equality of the channels, [diff] is 0 exactly on equal
    colours and positive otherwise, both are symmetric, and against [null]
    [eq] is false and [diff] is the sentinel -1, which no pair of colours
    gives. *)
Theorem Color_eq_diff (c o : Color.t) :
  (Color.eq c (Some o) = true ↔ c = o)
  ∧ (Color.diff c (Some o) = 0 ↔ c = o)
  ∧ 0 ≤ Color.diff c (Some o)
  ∧ Color.eq c (Some o) = Color.eq o (Some c)
  ∧ Color.diff c (Some o) = Color.diff o (Some c)
  ∧ Color.eq c None = false
  ∧ Color.diff c None = -1.
Proof.
  destruct c as [r1 g1 b1], o as [r2 g2 b2].
  unfold Color.eq, Color.diff. cbn [Color.r Color.g Color.b].
  split_and!; try reflexivity.
  - rewrite !andb_true_iff, !bool_decide_eq_true. split.
    + intros [[-> ->] ->]. reflexivity.
    + intros [= -> -> ->]. done.
  - split.
    + intros Hsum. f_equal; nia.
    + intros [= -> -> ->]. ring.
  - nia.
  - apply eq_true_iff_eq.
    rewrite !andb_true_iff, !bool_decide_eq_true. intuition congruence.
  - ring.
Qed.

Lemma regex_match_range (s : string) (r g b : Z) :
  regex_match s = Some (r, g, b) →
  (0 ≤ r < 256) ∧ (0 ≤ g < 256) ∧ (0 ≤ b < 256).
Proof.
  induction s as [|c rest IH].
  - simpl. discriminate.
  - cbn [regex_match].
    destruct (match_here (String c rest)) as [m|] eqn:Hm; [|exact IH].
    intros [= ->]. unfold match_here in Hm.
    destruct c as [[] [] [] [] [] [] [] []]; try discriminate Hm.
    destruct rest as [|a1 [|a2 [|b1 [|b2 [|c1 [|c2 rest]]]]]];
      try discriminate Hm.
    destruct (parseInt16_2 a1 a2) as [r'|] eqn:Er; [|discriminate Hm].
    destruct (parseInt16_2 b1 b2) as [g'|] eqn:Eg; [|discriminate Hm].
    destruct (parseInt16_2 c1 c2) as [b'|] eqn:Eb; [|discriminate Hm].
    simpl in Hm. injection Hm as -> -> ->.
    apply parseInt16_2_range in Er, Eg, Eb. done.
Qed.

(** Whatever the text, a colour that [fromHex] returns has its channels in
    0..255, its text has seven characters, and reading that text gives the
    colour back: [fromHex] after [toString] is the identity on everything
    [fromHex] can return. *)
Theorem fromHex_normalises (s : string) (c : Color.t) :
  Color.fromHex s = Some c →
  in_gamut c
  ∧ String.length (Color.toString c) = 7%nat
  ∧ Color.fromHex (Color.toString c) = Some c.
Proof.
  unfold Color.fromHex.
  destruct (regex_match s) as [[[r g] b]|] eqn:Hm; [|discriminate].
  intros [= <-].
  destruct (regex_match_range s r g b Hm) as (Hr & Hg & Hb).
  assert (Hnew : Color.new r g b = Color.mk r g b).
  { unfold Color.new. by rewrite !rem_256_small. }
  rewrite Hnew.
  assert (Hgamut : in_gamut (Color.mk r g b)) by done.
  split; [done|]. split.
  - destruct (paddedHex_in_gamut r Hr) as (r1 & r2 & Er & _).
    destruct (paddedHex_in_gamut g Hg) as (g1 & g2 & Eg & _).
    destruct (paddedHex_in_gamut b Hb) as (b1 & b2 & Eb & _).
    unfold Color.toString. cbn [Color.r Color.g Color.b].
    rewrite Er, Eg, Eb. reflexivity.
  - by apply fromHex_toString_in_gamut.
Qed.

Lemma fromHex_normalises_witness :
  in_gamut (Color.mk 171 205 239)
  ∧ String.length (Color.toString (Color.mk 171 205 239)) = 7%nat
  ∧ Color.fromHex (Color.toString (Color.mk 171 205 239))
    = Some (Color.mk 171 205 239).
Proof. apply (fromHex_normalises "zz#ABCDEFzz"). reflexivity. Defined.

Lemma digits_written_back_all :
  Forall (λ h, Forall (digits_written_back h) lower_hex_digits) lower_hex_digits.
Proof. apply (bool_decide_unpack _). vm_compute. exact I. Qed.

Lemma digits_written_back_lower (h l : ascii) :
  h ∈ lower_hex_digits → l ∈ lower_hex_digits →
  ∃ n, parseInt16_2 h l = Some n
       ∧ Color.paddedHex n = String h (String l EmptyString).
Proof.
  intros Hh Hl.
  pose proof digits_written_back_all as Hall.
  rewrite Forall_forall in Hall. specialize (Hall h Hh).
  rewrite Forall_forall in Hall. specialize (Hall l Hl).
  unfold digits_written_back in Hall.
  destruct (parseInt16_2 h l) as [n|]; [eauto|done].
Qed.

(** The other round trip: a [#] followed by six lowercase hexadecimal
    digits is read as a colour whose [toString] is that very text. *)
Theorem toString_fromHex_canonical (a1 a2 b1 b2 c1 c2 : ascii) :
  Forall (λ d, d ∈ lower_hex_digits) [a1; a2; b1; b2; c1; c2] →
  let text :=
    String "#" (String a1 (String a2 (String b1 (String b2
      (String c1 (String c2 EmptyString)))))) in
  ∃ c, Color.fromHex text = Some c ∧ Color.toString c = text.
Proof.
  intros Hall text.
  apply Forall_cons in Hall as [H1 Hall]. apply Forall_cons in Hall as [H2 Hall].
  apply Forall_cons in Hall as [H3 Hall]. apply Forall_cons in Hall as [H4 Hall].
  apply Forall_cons in Hall as [H5 Hall]. apply Forall_cons in Hall as [H6 _].
  destruct (digits_written_back_lower a1 a2 H1 H2) as (r & Pr & Er).
  destruct (digits_written_back_lower b1 b2 H3 H4) as (g & Pg & Eg).
  destruct (digits_written_back_lower c1 c2 H5 H6) as (b & Pb & Eb).
  exists (Color.mk r g b). split.
  - by apply fromHex_well_formed.
  - unfold Color.toString. cbn [Color.r Color.g Color.b].
    rewrite Er, Eg, Eb. reflexivity.
Qed.

Lemma toString_fromHex_canonical_witness :
  ∃ c, Color.fromHex "#fffefd" = Some c ∧ Color.toString c = "#fffefd".
Proof.
  apply (toString_fromHex_canonical "f" "f" "f" "e" "f" "d").
  repeat constructor; apply (bool_decide_unpack _); vm_compute; exact I.
Defined.

(** ** part_000: the page *)

Lemma start_game (num dif now : Z) (pg : Classes.page) :
  Classes.game (Classes.start num dif now pg)
  = Some (Classes.Game_start now (Classes.Game_new num dif (Classes.rng pg)).1)
  ∧ Classes.rng (Classes.start num dif now pg)
    = (Classes.Game_new num dif (Classes.rng pg)).2.
Proof.
  unfold Classes.start.
  destruct (Classes.Game_new num dif (Classes.rng pg)) as [g rng']. done.
Qed.

Lemma start_same_rng (num dif now : Z) (pg1 pg2 : Classes.page) :
  Classes.rng pg1 = Classes.rng pg2 →
  Classes.start num dif now pg1 = Classes.start num dif now pg2.
Proof. unfold Classes.start. by intros ->. Qed.

Lemma onTry_unreadable (hex : string) (now : Z) (g : Classes.Game) :
  Color.fromHex hex = None → Classes.onTry hex now g = (g, Classes.Null).
Proof.
  intros Hhex. unfold Classes.onTry. rewrite Hhex.
  by destruct (Classes.startTime g).
Qed.

(** A text in which [fromHex] finds no colour, submitted while there is a
    game, does not count as a try: the game is dropped, whatever its state,
    and a game of 200 colours at step 3 is started in its place, with score
    100 and no try. *)
Theorem submit_unreadable_restarts (hex : string) (now : Z)
    (pg : Classes.page) (g : Classes.Game) :
  Classes.game pg = Some g → Color.fromHex hex = None →
  Classes.submit hex now pg
  = (Classes.start 200 3 now pg, Some Classes.Null)
  ∧ ∃ g', Classes.game (Classes.start 200 3 now pg) = Some g'
          ∧ length (Classes.colors g') = 200%nat
          ∧ Classes.colorStep g' = 3
          ∧ Classes.score g' = 100%Q
          ∧ Classes.tryCount g' = 0
          ∧ Classes.startTime g' = Some now.
Proof.
  intros Hgame Hhex. split.
  - unfold Classes.submit. rewrite Hgame, (onTry_unreadable _ _ _ Hhex).
    rewrite (start_same_rng 200 3 now
               (Classes.mkPage (Some g) (Classes.rng pg)) pg) by reflexivity.
    reflexivity.
  - destruct (start_game 200 3 now pg) as [Hg _].
    destruct (Game_new_fields 200 3 (Classes.rng pg))
      as (Hlen & Hstep & Htry & _ & Hscore).
    assert (Hv : (if 200 <? 0 then Z.max (216 + 200) 0 else Z.min 200 216)
                 = 200) by reflexivity.
    rewrite Hv in Hlen. clear Hv.
    assert (Hs : (if 3 =? 1 then 1000%Q else 100%Q) = 100%Q) by reflexivity.
    rewrite Hs in Hscore. clear Hs.
    remember (Classes.Game_new 200 3 (Classes.rng pg)).1 as G eqn:HG.
    clear HG.
    exists (Classes.Game_start now G). split; [exact Hg|].
    destruct G as [sc tc st0 cs cols ans].
    cbn [Classes.Game_start Classes.colors Classes.colorStep Classes.score
         Classes.tryCount Classes.startTime] in *.
    split_and!; [lia|exact Hstep|exact Hscore|exact Htry|reflexivity].
Qed.

Lemma submit_unreadable_restarts_witness :
  Classes.submit "white" 9
    (Classes.start 3 1 0 (Classes.initial (rng_const zero_sample)))
  = (Classes.start 200 3 9
       (Classes.start 3 1 0 (Classes.initial (rng_const zero_sample))),
     Some Classes.Null)
  ∧ ∃ g', Classes.game
            (Classes.start 200 3 9
               (Classes.start 3 1 0 (Classes.initial (rng_const zero_sample))))
          = Some g'
          ∧ length (Classes.colors g') = 200%nat
          ∧ Classes.colorStep g' = 3
          ∧ Classes.score g' = 100%Q
          ∧ Classes.tryCount g' = 0
          ∧ Classes.startTime g' = Some 9.
Proof.
  eapply (submit_unreadable_restarts "white" 9).
  - apply start_game.
  - reflexivity.
Defined.

Lemma Game_new_gamut (num step : Z) (rng : Rng) (c : Color.t) :
  0 ≤ num → 1 ≤ step → 5 * step ≤ 255 →
  c ∈ Classes.colors (Classes.Game_new num step rng).1 → in_gamut c.
Proof.
  intros Hnum H1 H5 Hin.
  rewrite Game_new_colors in Hin by lia.
  apply elem_of_take in Hin as (i & Hi & _).
  apply list_elem_of_lookup_2 in Hi.
  rewrite (shuffle_Permutation (Classes.lattice step) rng) in Hi.
  pose proof (lattice_white_minus step H1 H5) as Hall.
  rewrite Forall_forall in Hall.
  apply (white_minus_in_gamut step); auto.
Qed.

Lemma Game_new_nonempty (num step : Z) (rng : Rng) :
  1 ≤ num → Classes.colors (Classes.Game_new num step rng).1 ≠ [].
Proof.
  intros Hnum Hnil.
  destruct (Game_new_fields num step rng) as (Hlen & _).
  rewrite Hnil in Hlen. rewrite (proj2 (Z.ltb_ge num 0)) in Hlen by lia.
  simpl in Hlen. lia.
Qed.

(** After [start(num, dif)] with [1 <= num <= 216] and a step from 1 to
    51, a click on a swatch of the palette is a success exactly when the
    swatch is the answer, and then clears the game; any other swatch is a
    failure that counts one try, takes [diff / dif^2] off the score and
    leaves the answer in place. *)
Theorem click_hits_only_the_answer (num dif now now' : Z) (pg : Classes.page) :
  1 ≤ num ≤ 216 → 1 ≤ dif → 5 * dif ≤ 255 →
  ∃ g a,
    Classes.game (Classes.start num dif now pg) = Some g
    ∧ Classes.answer g = Some a
    ∧ a ∈ Classes.colors g
    ∧ ∀ c, c ∈ Classes.colors g →
        match click c now' (Classes.start num dif now pg) with
        | (pg', Some (Classes.Done true _)) =>
            c = a ∧ Classes.game pg' = None
        | (pg', Some (Classes.Done false _)) =>
            c ≠ a
            ∧ ∃ g', Classes.game pg' = Some g'
                    ∧ Classes.tryCount g' = 1
                    ∧ Classes.score g'
                      = (Classes.score g
                         - inject_Z (Color.diff c (Some a)) / inject_Z (dif ^ 2))%Q
                    ∧ Classes.answer g' = Some a
        | _ => False
        end.
Proof.
  intros Hnum H1 H5.
  destruct (start_game num dif now pg) as [Hg _].
  destruct (Game_new_answer num dif (Classes.rng pg)) as (a & Ha & Hin).
  { apply Game_new_nonempty. lia. }
  destruct (Game_new_fields num dif (Classes.rng pg))
    as (_ & Hstep & Htry & _ & _).
  assert (Hgam : ∀ c,
    c ∈ Classes.colors (Classes.Game_new num dif (Classes.rng pg)).1 →
    Color.fromHex (Color.toString c) = Some c).
  { intros c Hc. apply fromHex_toString_in_gamut.
    apply (Game_new_gamut num dif (Classes.rng pg)); auto. lia. }
  remember (Classes.Game_new num dif (Classes.rng pg)).1 as G eqn:HG.
  clear HG.
  exists (Classes.Game_start now G), a.
  split; [exact Hg|].
  destruct G as [sc tc st0 cs cols ans].
  cbn [Classes.Game_start Classes.colors Classes.colorStep Classes.score
       Classes.tryCount Classes.startTime Classes.answer] in *.
  subst tc cs ans.
  split; [reflexivity|]. split; [exact Hin|].
  intros c Hc. specialize (Hgam c Hc).
  unfold click, Classes.submit. rewrite Hg.
  unfold Classes.onTry.
  cbn [Classes.Game_start Classes.startTime Classes.answer Classes.tryCount
       Classes.score Classes.colorStep Classes.colors].
  rewrite Hgam.
  destruct (decide (c = a)) as [->|Hne].
  - rewrite Color_eq_refl. cbn [Classes.game]. split; reflexivity.
  - assert (Heq : Color.eq a (Some c) = false).
    { apply not_true_is_false. intros Heq.
      apply Color_eq_true in Heq. congruence. }
    rewrite Heq. unfold Classes.onFailure.
    cbn [Classes.answer Classes.colorStep Classes.score Classes.tryCount
         Classes.game].
    split; [exact Hne|]. eexists. split; [reflexivity|].
    cbn [Classes.tryCount Classes.score Classes.answer].
    split_and!; reflexivity.
Qed.

Lemma click_hits_only_the_answer_witness :
  ∃ g a,
    Classes.game
      (Classes.start 200 1 0 (Classes.initial (rng_const half_sample)))
    = Some g
    ∧ Classes.answer g = Some a
    ∧ a ∈ Classes.colors g
    ∧ ∀ c, c ∈ Classes.colors g →
        match click c 5
                (Classes.start 200 1 0
                   (Classes.initial (rng_const half_sample))) with
        | (pg', Some (Classes.Done true _)) =>
            c = a ∧ Classes.game pg' = None
        | (pg', Some (Classes.Done false _)) =>
            c ≠ a
            ∧ ∃ g', Classes.game pg' = Some g'
                    ∧ Classes.tryCount g' = 1
                    ∧ Classes.score g'
                      = (Classes.score g
                         - inject_Z (Color.diff c (Some a)) / inject_Z (1 ^ 2))%Q
                    ∧ Classes.answer g' = Some a
        | _ => False
        end.
Proof.
  apply (click_hits_only_the_answer 200 1 0 5); lia.
Defined.

Lemma start_page_ok (num dif now : Z) (pg : Classes.page) :
  1 ≤ num → page_ok (Classes.start num dif now pg).
Proof.
  intros Hnum g Hg.
  destruct (start_game num dif now pg) as [Hstart _].
  destruct (Game_new_answer num dif (Classes.rng pg)) as (a & Ha & _).
  { by apply Game_new_nonempty. }
  destruct (Game_new_fields num dif (Classes.rng pg)) as (_ & _ & Htry & _).
  remember (Classes.Game_new num dif (Classes.rng pg)).1 as G eqn:HG.
  clear HG.
  rewrite Hstart in Hg. injection Hg as <-.
  destruct G as [sc tc st0 cs cols ans].
  cbn [Classes.Game_start Classes.startTime Classes.answer Classes.tryCount]
    in *.
  split_and!; [by exists now|by exists a|lia].
Qed.

Lemma onTry_page_ok (hex : string) (now : Z) (g : Classes.Game) (t : Z)
    (a : Color.t) :
  Classes.startTime g = Some t → Classes.answer g = Some a →
  (Classes.onTry hex now g).2 ≠ Classes.TypeError
  ∧ Classes.startTime (Classes.onTry hex now g).1 = Some t
  ∧ Classes.answer (Classes.onTry hex now g).1 = Some a
  ∧ Classes.tryCount g ≤ Classes.tryCount (Classes.onTry hex now g).1.
Proof.
  intros Ht Ha. unfold Classes.onTry. rewrite Ht.
  destruct (Color.fromHex hex) as [color|]; [|split_and!; try done; lia].
  cbn [Classes.answer]. rewrite Ha.
  destruct (Color.eq a (Some color)).
  - cbn. split_and!; try done; lia.
  - unfold Classes.onFailure. cbn. split_and!; try done; lia.
Qed.

Lemma submit_page_ok (hex : string) (now : Z) (pg : Classes.page) :
  page_ok pg →
  page_ok (Classes.submit hex now pg).1
  ∧ (Classes.submit hex now pg).2 ≠ Some Classes.TypeError.
Proof.
  intros Hok. unfold Classes.submit.
  destruct (Classes.game pg) as [g|] eqn:Hg.
  2: { cbn [fst snd]. split; [exact Hok|discriminate]. }
  destruct (Hok g Hg) as ([t Ht] & [a Ha] & Htry).
  pose proof (onTry_page_ok hex now g t a Ht Ha) as (Hres & Ht' & Ha' & Htry').
  destruct (Classes.onTry hex now g) as [g' res].
  cbn [fst snd] in Hres, Ht', Ha', Htry'.
  destruct res as [| [] call |]; cbn [fst snd].
  - split; [apply start_page_ok; lia|discriminate].
  - split; [|discriminate]. intros g0 Hg0. cbn [Classes.game] in Hg0.
    discriminate Hg0.
  - split; [|discriminate]. intros g0 Hg0. cbn [Classes.game] in Hg0.
    injection Hg0 as <-. split_and!; [by exists t|by exists a|lia].
  - exfalso. by apply Hres.
Qed.

(** On every page reached from the loaded one by [start] (for at least one
    colour) and [submit], a game that is there was started and has an
    answer, so that [submit] never ends in the [TypeError] of an undefined
    answer, whatever is submitted. *)
Theorem reachable_page_never_raises (pg : Classes.page) :
  page_reachable pg →
  page_ok pg
  ∧ ∀ (hex : string) (now : Z),
      (Classes.submit hex now pg).2 ≠ Some Classes.TypeError.
Proof.
  intros Hreach.
  assert (Hok : page_ok pg).
  { induction Hreach as [rng|num dif now pg Hnum _ _|hex now pg _ IH].
    - intros g [=].
    - by apply start_page_ok.
    - by apply submit_page_ok. }
  split; [exact Hok|]. intros hex now. by apply submit_page_ok.
Qed.

Lemma reachable_page_never_raises_witness :
  page_ok (click (Color.mk 255 255 250) 7
             (Classes.start 3 1 0 (Classes.initial (rng_const zero_sample)))).1
  ∧ ∀ (hex : string) (now : Z),
      (Classes.submit hex now
         (click (Color.mk 255 255 250) 7
            (Classes.start 3 1 0 (Classes.initial (rng_const zero_sample)))).1).2
      ≠ Some Classes.TypeError.
Proof.
  apply reachable_page_never_raises.
  apply reach_submit, reach_start; [lia|]. apply reach_initial.
Defined.

Lemma Game_new_0_answer (dif : Z) (rng : Rng) :
  Classes.answer (Classes.Game_new 0 dif rng).1 = None.
Proof.
  unfold Classes.Game_new.
  destruct (shuffle (Classes.lattice dif) rng) as [shuffled rng1].
  destruct (random rng1) as [u rng2]. cbn [fst Classes.answer].
  change (slice0 0 shuffled) with (@nil Color.t).
  unfold index. by destruct (_ <? 0).
Qed.

(** Without a colour there is no answer: after [start(0, dif)] the first
    submission in which [fromHex] finds a colour ends in the [TypeError] of
    [this.answer.eq], with the try counted and the game left in place. *)
Theorem start_0_raises (dif now now' : Z) (pg : Classes.page) (hex : string)
    (c : Color.t) :
  Color.fromHex hex = Some c →
  ∃ g', Classes.submit hex now' (Classes.start 0 dif now pg)
        = (Classes.mkPage (Some g') (Classes.rng (Classes.start 0 dif now pg)),
           Some Classes.TypeError)
        ∧ Classes.tryCount g' = 1
        ∧ Classes.colors g' = [].
Proof.
  intros Hhex.
  destruct (start_game 0 dif now pg) as [Hg _].
  destruct (Game_new_fields 0 dif (Classes.rng pg)) as (Hlen & _ & Htry & _).
  pose proof (Game_new_0_answer dif (Classes.rng pg)) as Hans.
  change (if 0 <? 0 then Z.max (216 + 0) 0 else Z.min 0 216) with 0 in Hlen.
  remember (Classes.Game_new 0 dif (Classes.rng pg)).1 as G eqn:HG.
  clear HG.
  unfold Classes.submit. rewrite Hg. unfold Classes.onTry.
  destruct G as [sc tc st0 cs cols ans].
  cbn [Classes.Game_start Classes.startTime Classes.answer Classes.tryCount
       Classes.colors] in *.
  subst tc ans. rewrite Hhex.
  eexists. split; [reflexivity|]. cbn [Classes.tryCount Classes.colors].
  split; [reflexivity|]. destruct cols; [reflexivity|simpl in Hlen; lia].
Qed.

Lemma start_0_raises_witness :
  ∃ g', Classes.submit "#ffffff" 4
          (Classes.start 0 1 0 (Classes.initial (rng_const zero_sample)))
        = (Classes.mkPage (Some g')
             (Classes.rng
                (Classes.start 0 1 0 (Classes.initial (rng_const zero_sample)))),
           Some Classes.TypeError)
        ∧ Classes.tryCount g' = 1
        ∧ Classes.colors g' = [].
Proof.
  apply (start_0_raises 1 0 4 _ "#ffffff" (Color.mk 255 255 255)).
  reflexivity.
Defined.

(** ** part_002: rounds of the script *)

Lemma misses_after_miss_other (st : Script.state) (ac : Script.rgb)
    (t0 r g b now : Z) (hex : string) :
  armed st ac t0 → valid_rgb (r, g, b) → (r, g, b) ≠ ac →
  misses (Script.submit r g b now st).1 hex
  = misses st hex
    + (if decide (Script.ConvertRGBtoHex (r, g, b) = hex) then 1 else 0).
Proof.
  intros Harmed Hvalid Hne. rewrite (submit_miss st ac t0) by done.
  unfold misses at 1. cbn [fst Script.with_score_num Script.with_miss_cnt
    Script.miss_cnt].
  destruct (decide (Script.ConvertRGBtoHex (r, g, b) = hex)) as [<-|Hhex].
  - by rewrite lookup_insert_eq.
  - rewrite lookup_insert_ne by done. unfold misses. lia.
Qed.

(** Any sequence of wrong clicks on an armed round: the round stays armed,
    every click counts as a try, the score goes down by the sum of the
    penalties, the counter of each hex goes up by the number of clicks on
    it, and the history is not touched. *)
Theorem wrong_clicks_add_up (clicks : list Script.rgb) (st : Script.state)
    (ac : Script.rgb) (t0 now : Z) :
  armed st ac t0 →
  Forall (λ c, valid_rgb c ∧ c ≠ ac) clicks →
  armed (run_clicks clicks now st) ac t0
  ∧ Script.try_num (run_clicks clicks now st)
    = Script.try_num st + Z.of_nat (length clicks)
  ∧ (Script.score_num (run_clicks clicks now st)
     == Script.score_num st - total_penalty clicks ac (Script.color_step st))%Q
  ∧ (∀ hex,
       misses (run_clicks clicks now st) hex
       = misses st hex
         + Z.of_nat
             (length (filter (λ c, Script.ConvertRGBtoHex c = hex) clicks)))
  ∧ Script.score_history5 (run_clicks clicks now st)
    = Script.score_history5 st.
Proof.
  intros Harmed Hall. revert st Harmed.
  induction Hall as [|[[r g] b] clicks [Hvalid Hne] _ IH]; intros st Harmed.
  - cbn [run_clicks total_penalty foldr length].
    split; [exact Harmed|]. split; [lia|]. split; [ring|].
    split; [|reflexivity]. intros hex. rewrite filter_nil. simpl. lia.
  - cbn [run_clicks fst snd].
    destruct (submit_miss_armed st ac t0 r g b now) as [Harmed1 Hstep1];
      try done.
    destruct (IH _ Harmed1) as (Ha & Ht & Hs & Hm & Hh).
    split; [done|]. split_and!.
    + rewrite Ht, (submit_miss st ac t0) by done.
      cbn [fst Script.with_score_num Script.with_miss_cnt Script.with_try_num
           Script.try_num length]. lia.
    + rewrite Hs, Hstep1, (submit_miss st ac t0) by done.
      cbn [fst Script.with_score_num Script.score_num total_penalty foldr].
      fold (total_penalty clicks ac (Script.color_step st)). ring.
    + intros hex. rewrite Hm, (misses_after_miss_other st ac t0) by done.
      rewrite filter_cons.
      destruct (decide (Script.ConvertRGBtoHex (r, g, b) = hex));
        cbn [length]; lia.
    + rewrite Hh, (submit_miss st ac t0) by done. reflexivity.
Qed.

Lemma wrong_clicks_add_up_witness :
  armed (run_clicks three_clicks 3 round_200_1) (255, 255, 254) 0
  ∧ Script.try_num (run_clicks three_clicks 3 round_200_1)
    = Script.try_num round_200_1 + Z.of_nat (length three_clicks)
  ∧ (Script.score_num (run_clicks three_clicks 3 round_200_1)
     == Script.score_num round_200_1
        - total_penalty three_clicks (255, 255, 254)%Z
            (Script.color_step round_200_1))%Q
  ∧ (∀ hex,
       misses (run_clicks three_clicks 3 round_200_1) hex
       = misses round_200_1 hex
         + Z.of_nat
             (length
                (filter (λ c, Script.ConvertRGBtoHex c = hex) three_clicks)))
  ∧ Script.score_history5 (run_clicks three_clicks 3 round_200_1)
    = Script.score_history5 round_200_1.
Proof.
  apply wrong_clicks_add_up.
  - exact round_200_1_armed.
  - repeat constructor; unfold valid_rgb; simpl; try lia; intros [=].
Defined.

Lemma rgb_white_minus_valid (dif : Z) (c : Script.rgb) :
  1 ≤ dif → 5 * dif ≤ 255 → rgb_white_minus dif c → valid_rgb c.
Proof.
  intros H1 H5 (r & g & b & Hr & Hg & Hb & ->). unfold valid_rgb. simpl.
  assert (0 ≤ r * dif ≤ 5 * dif) by (split; [apply Z.mul_nonneg_nonneg | apply Z.mul_le_mono_nonneg_r]; lia).
  assert (0 ≤ g * dif ≤ 5 * dif) by (split; [apply Z.mul_nonneg_nonneg | apply Z.mul_le_mono_nonneg_r]; lia).
  assert (0 ≤ b * dif ≤ 5 * dif) by (split; [apply Z.mul_nonneg_nonneg | apply Z.mul_le_mono_nonneg_r]; lia).
  lia.
Qed.

(** After [make_problem(num, dif)] with [1 <= num <= 216] and a step from 1
    to 51, a click on a swatch shown is a hit exactly when the swatch is the
    answer, timed from the start of the round; a click on any other swatch
    is a first miss of that colour with the penalty of its distance. *)
Theorem swatch_click_hits_only_the_answer (num dif now now' : Z)
    (st : Script.state) (rng : Rng) :
  1 ≤ num ≤ 216 → 1 ≤ dif → 5 * dif ≤ 255 →
  ∃ st' rng' shown ac,
    Script.make_problem num dif now st rng = (st', rng', Script.Ret shown)
    ∧ Script.ac_color st' = Some ac
    ∧ ac ∈ shown
    ∧ ∀ c, c ∈ shown →
        match (Script.submit c.1.1 c.1.2 c.2 now' st').2 with
        | Script.Hit time _ _ _ => c = ac ∧ time = Some (now' - now)
        | Script.Miss _ count pen =>
            c ≠ ac ∧ count = 1 ∧ pen = penalty c ac dif
        | _ => False
        end.
Proof.
  intros Hnum H1 H5.
  destruct (make_problem_in_range num dif now st rng) as
    (st' & rng' & ac & Heq & Hac & Hin & Hlat & Hhex & Hen & Hstep & _ & _
       & Ht & Hm & _); [lia|].
  eexists st', rng', _, ac. split; [exact Heq|]. split; [exact Hac|].
  split; [apply Hin; lia|].
  pose proof (Script_lattice_le_255 dif H1) as Hle.
  rewrite Forall_forall in Hle. destruct (Hle _ Hlat) as (? & ? & ?).
  assert (Harmed : armed st' ac now).
  { unfold armed. rewrite Hstep. split_and!; done. }
  intros c Hc.
  assert (Hvalid : valid_rgb c).
  { apply (rgb_white_minus_valid dif); [done|done|].
    apply elem_of_take in Hc as (i & Hi & _).
    apply list_elem_of_lookup_2 in Hi.
    rewrite (shuffle_Permutation (Script.lattice dif) rng) in Hi.
    pose proof (Script_lattice_white_minus dif) as Hall.
    rewrite Forall_forall in Hall. by apply Hall. }
  destruct (decide (c = ac)) as [->|Hne].
  - rewrite (submit_hit st' ac now now' Harmed). cbv zeta.
    destruct (Script.color_step st' =? 1); cbn [snd]; split; reflexivity.
  - destruct c as [[r g] b]. cbn [fst snd].
    rewrite (submit_miss st' ac now r g b now' Harmed Hvalid Hne). cbn [snd].
    split; [exact Hne|]. rewrite Hstep. split; [|reflexivity].
    unfold misses. rewrite Hm, lookup_empty. reflexivity.
Qed.

Lemma swatch_click_hits_only_the_answer_witness :
  ∃ st' rng' shown ac,
    Script.make_problem 3 3 10 Script.initial (rng_const half_sample)
    = (st', rng', Script.Ret shown)
    ∧ Script.ac_color st' = Some ac
    ∧ ac ∈ shown
    ∧ ∀ c, c ∈ shown →
        match (Script.submit c.1.1 c.1.2 c.2 25 st').2 with
        | Script.Hit time _ _ _ => c = ac ∧ time = Some (25 - 10)
        | Script.Miss _ count pen =>
            c ≠ ac ∧ count = 1 ∧ pen = penalty c ac 3
        | _ => False
        end.
Proof.
  apply (swatch_click_hits_only_the_answer 3 3 10 25); lia.
Defined.





(** A negative count breaks the invariant: [make_problem(-1, 1)] assigns
    [undefined] to [ac_color] and raises, and when an earlier round was
    armed, the next wrong click raises too. *)
Example negative_count_then_click_raises :
  let st1 :=
    (Script.make_problem (-1) 1 5 round_200_1 (rng_const half_sample)).1.1 in
  (Script.make_problem (-1) 1 5 round_200_1 (rng_const half_sample)).2
  = Script.Raise
  ∧ Script.ac_color st1 = None
  ∧ Script.enable_submit st1 = true
  ∧ (Script.submit 0 0 0 6 st1).2 = Script.Raised.
Proof. vm_compute. split_and!; reflexivity. Qed.

(** The history outlives the round, the miss counters and the score do
    not: after a hit at step 1 that ends a round on the score [s], the next
    [make_problem(num, 1)] arms a round with the history already holding
    [s], no miss recorded, no try and 1000 points; a hit on its first click
    then appends 1000 and drops one more old entry. *)
Theorem history_survives_new_round (st : Script.state) (ac : Script.rgb)
    (t0 now num now1 now2 : Z) (rng : Rng) (h0 h1 h2 h3 h4 : Script.hist) :
  armed st ac t0 →
  Script.color_step st = 1 →
  Script.score_history5 st = [h0; h1; h2; h3; h4] →
  1 ≤ num ≤ 216 →
  let st1 := (Script.submit ac.1.1 ac.1.2 ac.2 now st).1 in
  let st2 := (Script.make_problem num 1 now1 st1 rng).1.1 in
  ∃ ac2,
    armed st2 ac2 now1
    ∧ Script.score_history5 st2
      = [h1; h2; h3; h4; Script.final (Script.score_num st)]
    ∧ Script.miss_cnt st2 = ∅
    ∧ Script.try_num st2 = 0
    ∧ Script.score_num st2 = 1000%Q
    ∧ Script.score_history5 (Script.submit ac2.1.1 ac2.1.2 ac2.2 now2 st2).1
      = [h2; h3; h4; Script.final (Script.score_num st); Script.final 1000]
    ∧ ∃ ave, (Script.submit ac2.1.1 ac2.1.2 ac2.2 now2 st2).2
             = Script.Hit (Some (now2 - now1))
                 Script.comment_first_try.1 Script.comment_first_try.2
                 (Some ave).
Proof.
  intros Harmed Hstep Hhist Hnum st1 st2.
  pose proof (submit_hit st ac t0 now Harmed) as Hsub. cbv zeta in Hsub.
  rewrite Hstep, Hhist in Hsub. cbn [Z.eqb Pos.eqb tail app] in Hsub.
  assert (Hh1 : Script.score_history5 st1
                = [h1; h2; h3; h4; Script.final (Script.score_num st)]).
  { unfold st1. rewrite Hsub. reflexivity. }
  destruct (make_problem_in_range num 1 now1 st1 rng) as
    (st2' & rng' & ac2 & Heq & Hac & _ & Hlat & Hhex & Hen & Hstep2 & Hscore
       & Htry & Ht & Hm & Hh); [lia|].
  assert (Hst2 : st2 = st2') by (unfold st2; by rewrite Heq).
  rewrite Hst2. exists ac2.
  pose proof (Script_lattice_le_255 1 ltac:(lia)) as Hle.
  rewrite Forall_forall in Hle. destruct (Hle _ Hlat) as (? & ? & ?).
  assert (Harmed2 : armed st2' ac2 now1).
  { unfold armed. rewrite Hstep2. split_and!; done. }
  split; [done|]. split; [by rewrite Hh|]. split; [done|]. split; [done|].
  split; [done|].
  pose proof (submit_hit st2' ac2 now1 now2 Harmed2) as Hsub2. cbv zeta in Hsub2.
  rewrite Hstep2, Hh, Hh1, Hscore, Htry in Hsub2.
  cbn [Z.eqb Pos.eqb tail app Z.add] in Hsub2.
  rewrite Hsub2. split; [reflexivity|]. eexists. reflexivity.
Qed.

Lemma history_survives_new_round_witness :
  let st1 := (Script.submit 255 255 254 9 round_200_1).1 in
  let st2 := (Script.make_problem 200 1 20 st1 (rng_const half_sample)).1.1 in
  ∃ ac2,
    armed st2 ac2 20
    ∧ Script.score_history5 st2
      = [Script.placeholder; Script.placeholder; Script.placeholder;
         Script.placeholder; Script.final (Script.score_num round_200_1)]
    ∧ Script.miss_cnt st2 = ∅
    ∧ Script.try_num st2 = 0
    ∧ Script.score_num st2 = 1000%Q
    ∧ Script.score_history5 (Script.submit ac2.1.1 ac2.1.2 ac2.2 30 st2).1
      = [Script.placeholder; Script.placeholder; Script.placeholder;
         Script.final (Script.score_num round_200_1); Script.final 1000]
    ∧ ∃ ave, (Script.submit ac2.1.1 ac2.1.2 ac2.2 30 st2).2
             = Script.Hit (Some (30 - 20))
                 Script.comment_first_try.1 Script.comment_first_try.2
                 (Some ave).
Proof.
  apply (history_survives_new_round round_200_1 (255, 255, 254) 0 9 200 20 30
           (rng_const half_sample)
           Script.placeholder Script.placeholder Script.placeholder
           Script.placeholder Script.placeholder).
  - exact round_200_1_armed.
  - reflexivity.
  - reflexivity.
  - lia.
Defined.

(** ** The elapsed time as text *)

Lemma padded_3_all : Forall (padded_reads_back 3 "00") (seqZ 0 1000).
Proof. apply (bool_decide_unpack _). vm_compute. exact I. Qed.

Lemma padded_2_all : Forall (padded_reads_back 2 "0") (seqZ 0 100).
Proof. apply (bool_decide_unpack _). vm_compute. exact I. Qed.

Lemma read_decimal_toString10 (n : Z) : read_decimal (toString10 n) = Some n.
Proof.
  unfold read_decimal, toString10.
  rewrite DecimalString.NilZero.isi.
  - simpl. f_equal. apply DecimalZ.of_to.
  - intros Hnil. pose proof (DecimalZ.of_to n) as Hn. rewrite Hnil in Hn.
    simpl in Hn. subst n. discriminate Hnil.
  - intros Hnil. pose proof (DecimalZ.of_to n) as Hn. rewrite Hnil in Hn.
    simpl in Hn. subst n. discriminate Hnil.
Qed.

(** For an elapsed time that is not negative, the text of [submit] is the
    whole seconds, a dot and exactly three digits that read as the
    milliseconds, and the text of [update_timer] is the whole seconds, a dot
    and exactly two digits that read as the hundredths: both read back to
    the time they were made from. *)
Theorem time_text_reads_back (time : Z) :
  0 ≤ time →
  (∃ frac,
     time_text time = (toString10 (time / 1000) ++ "." ++ frac)%string
     ∧ String.length frac = 3%nat
     ∧ read_decimal (toString10 (time / 1000)) = Some (time / 1000)
     ∧ read_decimal frac = Some (time mod 1000))
  ∧ (∃ frac,
       timer_text time = (toString10 (time / 1000) ++ "." ++ frac)%string
       ∧ String.length frac = 2%nat
       ∧ read_decimal frac = Some ((time / 10) mod 100)).
Proof.
  intros Htime. split.
  - pose proof padded_3_all as Hall. rewrite Forall_forall in Hall.
    destruct (Hall (time mod 1000)) as [Hlen Hread].
    { apply elem_of_seqZ. pose proof (Z.mod_pos_bound time 1000). lia. }
    eexists. unfold time_text. rewrite Z.rem_mod_nonneg by lia.
    split; [reflexivity|]. split; [exact Hlen|].
    split; [apply read_decimal_toString10|exact Hread].
  - pose proof padded_2_all as Hall. rewrite Forall_forall in Hall.
    assert (0 ≤ time / 10) by (apply Z.div_pos; lia).
    destruct (Hall ((time / 10) mod 100)) as [Hlen Hread].
    { apply elem_of_seqZ. pose proof (Z.mod_pos_bound (time / 10) 100). lia. }
    eexists. unfold timer_text. rewrite Z.rem_mod_nonneg by lia.
    split; [reflexivity|]. split; [exact Hlen|exact Hread].
Qed.

Lemma time_text_reads_back_witness :
  (∃ frac,
     time_text 12034 = (toString10 (12034 / 1000) ++ "." ++ frac)%string
     ∧ String.length frac = 3%nat
     ∧ read_decimal (toString10 (12034 / 1000)) = Some (12034 / 1000)
     ∧ read_decimal frac = Some (12034 mod 1000))
  ∧ (∃ frac,
       timer_text 12034 = (toString10 (12034 / 1000) ++ "." ++ frac)%string
       ∧ String.length frac = 2%nat
       ∧ read_decimal frac = Some ((12034 / 10) mod 100)).
Proof. apply time_text_reads_back. lia. Defined.

(** Twelve seconds and 34 milliseconds; and a clock that went back by 5
    milliseconds, which [%] and [slice] turn into a text that is no
    number. *)
Example time_text_examples :
  time_text 12034 = "12.034"%string
  ∧ timer_text 12034 = "12.03"%string
  ∧ time_text (-5) = "-1.0-5"%string.
Proof. split_and!; reflexivity. Qed.

(** ** main.js against part_002 *)


(** ** part_001: the round of the [state] object *)

Lemma wrapped_lattice_ok : Forall wrapped_color wrapped_lattice.
Proof. apply (bool_decide_unpack _). vm_compute. exact I. Qed.

Lemma wrapped_lattice_NoDup : NoDup wrapped_lattice.
Proof. apply (bool_decide_unpack _). vm_compute. exact I. Qed.



Lemma StateRound_make_problem_eq (num dif now : Z) (st : StateRound.state)
    (rng : Rng) :
  StateRound.make_problem num dif now st rng
  = ({| StateRound.acColor :=
          index (shuffle wrapped_lattice rng).1
            (floor_mul (random (shuffle wrapped_lattice rng).2).1 num);
        StateRound.tryCount := 0;
        StateRound.score := if dif =? 1 then 1000%Q else 100%Q;
        StateRound.readyForSubmission := true;
        StateRound.startTime := Some now;
        StateRound.colorStep := dif |},
     (random (shuffle wrapped_lattice rng).2).2,
     Some (slice0 num (shuffle wrapped_lattice rng).1)).
Proof.
  unfold StateRound.make_problem.
  change (Color.fromHex "#FFFFFF") with (Some (Color.mk 255 255 255)).
  cbv beta iota. fold wrapped_lattice.
  destruct (shuffle wrapped_lattice rng) as [shuffled rng1]. cbn [fst snd].
  destruct (random rng1) as [u rng2]. reflexivity.
Qed.

Lemma slice0_sublist {A : Type} (n : Z) (l : list A) : slice0 n l `sublist_of` l.
Proof. unfold slice0. destruct (n <? 0); apply sublist_take. Qed.

(** The palette of part_001 does not depend on the step: whatever [dif],
    the swatches shown and the answer are those drawn from one fixed list of
    216 distinct colours whose channels are 255 or 0..4, the white of the
    target among them; only [colorStep] and the initial score follow
    [dif]. *)
Theorem palette_ignores_step (num dif now : Z) (st : StateRound.state)
    (rng : Rng) :
  ∃ st' rng' shown,
    StateRound.make_problem num dif now st rng = (st', rng', Some shown)
    ∧ shown = slice0 num (shuffle wrapped_lattice rng).1
    ∧ StateRound.acColor st'
      = index (shuffle wrapped_lattice rng).1
          (floor_mul (random (shuffle wrapped_lattice rng).2).1 num)
    ∧ Forall wrapped_color shown
    ∧ NoDup shown
    ∧ StateRound.colorStep st' = dif
    ∧ StateRound.score st' = (if dif =? 1 then 1000%Q else 100%Q)
    ∧ StateRound.tryCount st' = 0
    ∧ StateRound.readyForSubmission st' = true.
Proof.
  eexists _, _, _. split; [apply StateRound_make_problem_eq|].
  cbn [StateRound.acColor StateRound.colorStep StateRound.score
       StateRound.tryCount StateRound.readyForSubmission].
  pose proof (shuffle_Permutation wrapped_lattice rng) as Hperm.
  split; [reflexivity|]. split; [reflexivity|]. split.
  { unfold slice0. destruct (num <? 0); apply Forall_take;
      rewrite Hperm; apply wrapped_lattice_ok. }
  split.
  { apply (sublist_NoDup _ (shuffle wrapped_lattice rng).1);
      [|apply slice0_sublist].
    rewrite Hperm. apply wrapped_lattice_NoDup. }
  split_and!; reflexivity.
Qed.







(** ** part_002: what [submit] and [make_problem] leave alone *)

Lemma penalty_term_nonneg (a b c step : Z) :
  (0 <= inject_Z (a ^ 2 + b ^ 2 + c ^ 2) / inject_Z (step ^ 2))%Q.
Proof.
  unfold Qdiv. apply Qmult_le_0_compat.
  - unfold Qle. simpl. nia.
  - apply Qinv_le_0_compat. unfold Qle. simpl. nia.
Qed.

Lemma submit_history (r g b now : Z) (st : Script.state) :
  Script.score_history5 (Script.submit r g b now st).1
  = Script.score_history5 st
  ∨ (Script.score_history5 (Script.submit r g b now st).1
     = tail (Script.score_history5 st) ++ [Script.final (Script.score_num st)]
     ∧ Script.color_step st = 1
     ∧ ∃ time c c2 ave,
         (Script.submit r g b now st).2 = Script.Hit time c c2 ave).
Proof.
  unfold Script.submit.
  destruct (Script.enable_submit st); cbn [negb]; [|by left].
  cbn [Script.with_try_num Script.ac_color_hex Script.miss_cnt Script.ac_color
       Script.with_miss_cnt].
  destruct (String.eqb _ _).
  - destruct (Script.update_timer _ _) as [time|]; [|by left].
    destruct (Script.comments _ _ _) as [c c2].
    cbn [Script.with_enable_submit Script.with_try_num Script.color_step
         Script.score_history5 Script.score_num].
    destruct (Z.eqb_spec (Script.color_step st) 1) as [Hstep|_]; [|by left].
    right. cbn [fst snd Script.with_score_history5 Script.score_history5].
    split; [reflexivity|]. split; [exact Hstep|]. by eexists _, _, _, _.
  - destruct (Script.ac_color st) as [[[ar ag] ab]|]; by left.
Qed.

(** Whatever the state, as long as the step is not 0, [submit] never
    touches the answer, its text, the step or the start time, never arms a
    round, never raises the score, counts one try unless it returns at once,
    and changes the history only by a hit at step 1. *)
Theorem submit_changes_little (r g b now : Z) (st : Script.state) :
  Script.color_step st ≠ 0 →
  Script.ac_color (Script.submit r g b now st).1 = Script.ac_color st
  ∧ Script.ac_color_hex (Script.submit r g b now st).1 = Script.ac_color_hex st
  ∧ Script.color_step (Script.submit r g b now st).1 = Script.color_step st
  ∧ Script.start_time (Script.submit r g b now st).1 = Script.start_time st
  ∧ (Script.enable_submit (Script.submit r g b now st).1 = true →
     Script.enable_submit st = true)
  ∧ (Script.score_num (Script.submit r g b now st).1 <= Script.score_num st)%Q
  ∧ ((Script.submit r g b now st).2 = Script.Ignored →
     (Script.submit r g b now st).1 = st)
  ∧ ((Script.submit r g b now st).2 ≠ Script.Ignored →
     Script.try_num (Script.submit r g b now st).1 = Script.try_num st + 1)
  ∧ (Script.score_history5 (Script.submit r g b now st).1
     ≠ Script.score_history5 st →
     Script.color_step st = 1
     ∧ ∃ time c c2 ave,
         (Script.submit r g b now st).2 = Script.Hit time c c2 ave).
Proof.
  intros Hstep.
  assert (Hhist :
    Script.score_history5 (Script.submit r g b now st).1
    ≠ Script.score_history5 st →
    Script.color_step st = 1
    ∧ ∃ time c c2 ave,
        (Script.submit r g b now st).2 = Script.Hit time c c2 ave).
  { intros Hne. destruct (submit_history r g b now st) as [Heq|(_ & H1 & Hhit)];
      [by destruct Hne|by split]. }
  revert Hhist. unfold Script.submit.
  destruct (Script.enable_submit st) eqn:Hen; cbn [negb].
  2: { intros Hhist. cbn [fst snd]. rewrite Hen.
       split_and!; try reflexivity; try done. apply Qle_refl. }
  cbn [Script.with_try_num Script.ac_color_hex Script.miss_cnt Script.ac_color
       Script.with_miss_cnt].
  destruct (String.eqb _ _).
  - destruct (Script.update_timer _ _) as [time|].
    + destruct (Script.comments _ _ _) as [c c2].
      cbn [Script.with_enable_submit Script.with_try_num Script.color_step
           Script.score_history5 Script.score_num].
      destruct (Script.color_step st =? 1); intros Hhist; cbn [fst snd];
        cbn [Script.with_score_history5 Script.ac_color Script.ac_color_hex
             Script.color_step Script.start_time Script.enable_submit
             Script.score_num Script.try_num];
        split_and!; try reflexivity; try discriminate; try exact Hhist;
        apply Qle_refl.
    + intros Hhist. cbn [fst snd Script.ac_color Script.ac_color_hex
        Script.color_step Script.start_time Script.enable_submit
        Script.score_num Script.try_num].
      split_and!; try reflexivity; try discriminate; try exact Hhist;
        try (intros _; exact Hen); apply Qle_refl.
  - destruct (Script.ac_color st) as [[[ar ag] ab]|] eqn:Hac;
      intros Hhist; cbn [fst snd];
      cbn [Script.with_score_num Script.with_miss_cnt Script.with_try_num
           Script.ac_color Script.ac_color_hex Script.color_step
           Script.start_time Script.enable_submit Script.score_num
           Script.try_num];
      split_and!; try reflexivity; try discriminate; try exact Hhist;
      try exact Hac; try (intros _; exact Hen); try apply Qle_refl.
    rewrite <- (Qplus_0_r (Script.score_num st)) at 2.
    unfold Qminus. apply Qplus_le_r.
    apply (Qopp_le_compat 0). apply penalty_term_nonneg.
Qed.

Lemma submit_changes_little_witness :
  Script.ac_color (Script.submit 1 2 3 4 round_200_1).1
  = Script.ac_color round_200_1
  ∧ Script.ac_color_hex (Script.submit 1 2 3 4 round_200_1).1
    = Script.ac_color_hex round_200_1
  ∧ Script.color_step (Script.submit 1 2 3 4 round_200_1).1
    = Script.color_step round_200_1
  ∧ Script.start_time (Script.submit 1 2 3 4 round_200_1).1
    = Script.start_time round_200_1
  ∧ (Script.enable_submit (Script.submit 1 2 3 4 round_200_1).1 = true →
     Script.enable_submit round_200_1 = true)
  ∧ (Script.score_num (Script.submit 1 2 3 4 round_200_1).1
     <= Script.score_num round_200_1)%Q
  ∧ ((Script.submit 1 2 3 4 round_200_1).2 = Script.Ignored →
     (Script.submit 1 2 3 4 round_200_1).1 = round_200_1)
  ∧ ((Script.submit 1 2 3 4 round_200_1).2 ≠ Script.Ignored →
     Script.try_num (Script.submit 1 2 3 4 round_200_1).1
     = Script.try_num round_200_1 + 1)
  ∧ (Script.score_history5 (Script.submit 1 2 3 4 round_200_1).1
     ≠ Script.score_history5 round_200_1 →
     Script.color_step round_200_1 = 1
     ∧ ∃ time c c2 ave,
         (Script.submit 1 2 3 4 round_200_1).2 = Script.Hit time c c2 ave).
Proof.
  apply submit_changes_little.
  destruct round_200_1_armed as (_ & _ & _ & _ & Hstep & _). lia.
Defined.

Lemma floor_mul_negative (u : sample) (num : Z) :
  num < 0 → s_num u ≠ 0%N → floor_mul u num < 0.
Proof.
  intros Hnum Hu. unfold floor_mul.
  apply Z.div_lt_upper_bound; [lia|]. nia.
Qed.

(** A negative count: the loop writes no swatch, the index drawn for the
    answer is negative unless [Math.random()] returned exactly 0, the answer
    becomes [undefined] and [ConvertRGBtoHex] raises.  Only [color_step] and
    [ac_color] have changed by then, so a round armed before stays enabled,
    and on it every click that is not the old answer raises as well. *)
Theorem make_problem_negative (num dif now : Z) (st : Script.state) (rng : Rng) :
  num < 0 →
  s_num (random (shuffle (Script.lattice dif) rng).2).1 ≠ 0%N →
  ∃ rng',
    Script.make_problem num dif now st rng
    = (Script.with_ac_color None (Script.with_color_step dif st), rng',
       Script.Raise)
    ∧ ∀ r g b now' : Z,
        Script.enable_submit st = true →
        Script.ConvertRGBtoHex (r, g, b) ≠ Script.ac_color_hex st →
        (Script.submit r g b now'
           (Script.with_ac_color None (Script.with_color_step dif st))).2
        = Script.Raised.
Proof.
  intros Hnum Hu. unfold Script.make_problem.
  destruct (shuffle (Script.lattice dif) rng) as [shuffled rng1].
  cbn [fst snd] in Hu.
  assert (Hsw : Script.swatches num shuffled = Script.Ret []).
  { unfold Script.swatches. replace (Z.to_nat num) with 0%nat by lia.
    reflexivity. }
  rewrite Hsw.
  destruct (random rng1) as [u rng2]. cbn [fst] in Hu.
  pose proof (floor_mul_negative u num Hnum Hu) as Hneg.
  assert (Hidx : index shuffled (floor_mul u num) = None).
  { unfold index. by rewrite (proj2 (Z.ltb_lt _ 0)). }
  rewrite Hidx. cbn [Script.with_ac_color Script.ac_color].
  eexists. split; [reflexivity|].
  intros r g b now' Hen Hhex. unfold Script.submit.
  cbn [Script.with_ac_color Script.with_color_step Script.enable_submit
       Script.with_try_num Script.ac_color_hex Script.miss_cnt
       Script.with_miss_cnt Script.ac_color].
  rewrite Hen. cbn [negb].
  destruct (String.eqb_spec (Script.ConvertRGBtoHex (r, g, b))
              (Script.ac_color_hex st)) as [Heq|_]; [by destruct Hhex|].
  reflexivity.
Qed.

Lemma make_problem_negative_witness :
  ∃ rng',
    Script.make_problem (-1) 1 5 round_200_1 (rng_const half_sample)
    = (Script.with_ac_color None (Script.with_color_step 1 round_200_1), rng',
       Script.Raise)
    ∧ ∀ r g b now' : Z,
        Script.enable_submit round_200_1 = true →
        Script.ConvertRGBtoHex (r, g, b) ≠ Script.ac_color_hex round_200_1 →
        (Script.submit r g b now'
           (Script.with_ac_color None (Script.with_color_step 1 round_200_1))).2
        = Script.Raised.
Proof.
  apply (make_problem_negative (-1) 1 5 round_200_1 (rng_const half_sample)).
  - lia.
  - vm_compute. discriminate.
Defined.

(** ** part_002: the shape of the history *)

Lemma history_shape_push (history : list Script.hist) (v : Q) :
  history_shape history →
  history_shape (tail history ++ [Script.final v]).
Proof.
  intros (k & vs & -> & Hlen).
  destruct k as [|k].
  - destruct vs as [|v0 vs]; [simpl in Hlen; lia|].
    exists 0%nat, (vs ++ [v]). split.
    + simpl. by rewrite fmap_app.
    + rewrite length_app. simpl in *. lia.
  - exists k, (vs ++ [v]). split.
    + simpl. by rewrite fmap_app, app_assoc.
    + rewrite length_app. simpl in *. lia.
Qed.

Lemma make_problem_history (num dif now : Z) (st : Script.state) (rng : Rng) :
  Script.score_history5 (Script.make_problem num dif now st rng).1.1
  = Script.score_history5 st.
Proof.
  unfold Script.make_problem.
  destruct (shuffle (Script.lattice dif) rng) as [shuffled rng1].
  destruct (Script.swatches num shuffled) as [shown|]; [|reflexivity].
  destruct (random rng1) as [u rng2].
  cbn [Script.with_ac_color Script.ac_color].
  destruct (index shuffled (floor_mul u num)); reflexivity.
Qed.

(** In every state reached from the loaded script the history is some
    placeholders followed by scores, five entries in all: a score once
    entered is only ever pushed towards the front, and placeholders never
    come back.  In particular, once the average is available it stays
    available after every later hit at step 1. *)
Theorem reachable_history_shape (st : Script.state) :
  script_reachable st →
  history_shape (Script.score_history5 st)
  ∧ ∀ r g b now : Z,
      Script.placeholder ∉ Script.score_history5 st →
      Script.placeholder ∉ Script.score_history5 (Script.submit r g b now st).1.
Proof.
  intros Hreach. split.
  - induction Hreach as [|num dif now st rng _ _ IH|r g b now st _ IH].
    + exists 5%nat, []. split; reflexivity.
    + by rewrite make_problem_history.
    + destruct (submit_history r g b now st) as [->|(-> & _)]; [done|].
      by apply history_shape_push.
  - intros r g b now Hno.
    destruct (submit_history r g b now st) as [->|(-> & _)]; [done|].
    intros Hin. apply elem_of_app in Hin as [Hin|Hin].
    + apply Hno. destruct (Script.score_history5 st); [done|].
      by apply elem_of_cons; right.
    + apply list_elem_of_singleton in Hin. discriminate Hin.
Qed.

Lemma reachable_history_shape_witness :
  history_shape (Script.score_history5 (Script.submit 255 255 254 9 round_200_1).1)
  ∧ ∀ r g b now : Z,
      Script.placeholder
        ∉ Script.score_history5 (Script.submit 255 255 254 9 round_200_1).1 →
      Script.placeholder
        ∉ Script.score_history5
            (Script.submit r g b now
               (Script.submit 255 255 254 9 round_200_1).1).1.
Proof.
  apply reachable_history_shape.
  apply sreach_submit.
  apply (sreach_make_problem 200 1 0 Script.initial (rng_const zero_sample));
    [lia|]. apply sreach_initial.
Defined.

(** ** The class variant: the end of a game *)


